(** * ExplorePy EDA toolkit: the cleaning stages of [src/cleaning.py]

    The cleaning module is a set of thin wrappers over pandas and
    scikit-learn.  The wrappers are embedded function by function, under
    their source names, in the last part of the definitions; the library
    primitives they call are given executable models first.

    Conventions of the embedding.
    - A float64 cell is recorded as the rational it holds ([Q]); the
      missing marker (NaN, None, NaT) of a cell is [None].  Means and
      medians are taken over the rationals.  Quantiles, fences and the
      comparisons against them, where rounding and overflow decide which
      rows are flagged, are computed in IEEE 754 binary64 ([F64]).
    - A DataFrame is a row count (the length of its index) and an ordered
      list of named columns; a column is numeric (float64 or datetime64),
      object (text) or boolean.  Integer columns are numeric columns.
    - A Python call that mutates its argument is a function from the frame
      to an [outcome]: the state of the caller's frame after the call and
      the value returned or the exception raised.
    - Library functions whose result the wrappers only pass along
      (KNNImputer, to_datetime, to_numeric, str of a number) are the
      fields of the class [Externals]. *)

From Stdlib Require Import String Ascii Bool Arith PeanoNat ZArith QArith Lia.
From Stdlib Require SpecFloat.
From Stdlib Require Import Sorted Permutation RelationClasses List.
Import ListNotations.

Set Implicit Arguments.

(* ------------------------------------------------------------------ *)
(** ** Python results *)

Module Py.

Inductive exn : Type := KeyError | TypeError | ValueError | AttributeError.

Inductive result (A : Type) : Type :=
| Ok (a : A)
| Raise (e : exn).

Arguments Ok {A} a.
Arguments Raise {A} e.

Definition bind {A B : Type} (r : result A) (k : A -> result B) : result B :=
  match r with
  | Ok a => k a
  | Raise e => Raise e
  end.

(** Truth value of an optional list argument: [None] and [[]] are falsy. *)
Definition truthy {A : Type} (o : option (list A)) : bool :=
  match o with
  | Some (_ :: _) => true
  | _ => false
  end.

End Py.
Import Py.

Notation "x <- r ;; k" := (Py.bind r (fun x => k))
  (at level 61, r at next level, right associativity).

(* ------------------------------------------------------------------ *)
(** ** Sorting and counting over an ordered type *)

Section Ordered.

Variable A : Type.
Variable cmp : A -> A -> comparison.

Definition eqb_of (x y : A) : bool :=
  match cmp x y with Eq => true | _ => false end.

(** Stable insertion into an ascending list. *)
Fixpoint insert (x : A) (l : list A) : list A :=
  match l with
  | [] => [x]
  | y :: l' =>
      match cmp x y with
      | Gt => y :: insert x l'
      | _ => x :: l
      end
  end.

Definition sort (l : list A) : list A := fold_right insert [] l.

(** Insertion that keeps one representative per value. *)
Fixpoint insert_uniq (x : A) (l : list A) : list A :=
  match l with
  | [] => [x]
  | y :: l' =>
      match cmp x y with
      | Lt => x :: l
      | Eq => l
      | Gt => y :: insert_uniq x l'
      end
  end.

(** [np.unique]: the distinct values in ascending order. *)
Definition unique (l : list A) : list A := fold_right insert_uniq [] l.

Definition count (x : A) (l : list A) : nat :=
  length (filter (eqb_of x) l).

(** Position of [x] in [l] ([length l] when absent). *)
Fixpoint index_of (x : A) (l : list A) : nat :=
  match l with
  | [] => 0
  | y :: l' => if eqb_of x y then 0 else S (index_of x l')
  end.

(** The most frequent value; among equally frequent ones the least
    ([Series.mode] returns the modes in ascending order and the wrappers
    take the first). *)
Definition mode (l : list A) : option A :=
  fold_left
    (fun best v =>
       match best with
       | None => Some v
       | Some b => if count b l <? count v l then Some v else Some b
       end)
    (unique l) None.

(** Distinct values in order of first appearance. *)
Fixpoint first_seen (seen : list A) (l : list A) : list A :=
  match l with
  | [] => rev seen
  | x :: l' =>
      if existsb (eqb_of x) seen then first_seen seen l'
      else first_seen (x :: seen) l'
  end.

End Ordered.

(** Missing values sort after every value ([np.unique] puts NaN last). *)
Definition cmp_option {A : Type} (cmp : A -> A -> comparison)
    (x y : option A) : comparison :=
  match x, y with
  | Some a, Some b => cmp a b
  | Some _, None => Lt
  | None, Some _ => Gt
  | None, None => Eq
  end.

(* ------------------------------------------------------------------ *)
(** ** float64 arithmetic *)

Module F64.

(** IEEE 754 binary64: 53 bits of precision, exponents below 1024, every
    operation rounded to the nearest value, ties to even. *)
Definition prec : Z := 53.
Definition emax : Z := 1024.

Definition f64 : Type := SpecFloat.spec_float.

Definition nan : f64 := SpecFloat.S754_nan.
Definition inf : f64 := SpecFloat.S754_infinity false.
Definition neg_inf : f64 := SpecFloat.S754_infinity true.

Definition add : f64 -> f64 -> f64 := SpecFloat.SFadd prec emax.
Definition sub : f64 -> f64 -> f64 := SpecFloat.SFsub prec emax.
Definition mul : f64 -> f64 -> f64 := SpecFloat.SFmul prec emax.
Definition div : f64 -> f64 -> f64 := SpecFloat.SFdiv prec emax.

(** [x < y] and [x <= y]: false as soon as a side is NaN. *)
Definition ltb : f64 -> f64 -> bool := SpecFloat.SFltb.
Definition leb : f64 -> f64 -> bool := SpecFloat.SFleb.

(** The order a sort of floats without NaN follows. *)
Definition compare (x y : f64) : comparison :=
  match SpecFloat.SFcompare x y with
  | Some c => c
  | None => Eq
  end.

(** [float(z)] *)
Definition of_Z (z : Z) : f64 := SpecFloat.binary_normalize prec emax z 0 false.

Definition of_nat (n : nat) : f64 := of_Z (Z.of_nat n).

(** The float64 a recorded rational stands for: the float64 quotient of
    its numerator by its denominator, which is the rational itself when
    that is a float64, and the float64 nearest to a decimal such as 0.1. *)
Definition of_Q (q : Q) : f64 := div (of_Z (Qnum q)) (of_Z (Zpos (Qden q))).

(** [np.floor(x)] of a finite float, as an integer. *)
Definition floor (x : f64) : Z :=
  match x with
  | SpecFloat.S754_finite s m e =>
      let z := if s then Zneg m else Zpos m in
      match e with
      | Zneg k => Z.shiftr z (Zpos k)
      | _ => Z.shiftl z e
      end
  | _ => 0%Z
  end.

End F64.

(* ------------------------------------------------------------------ *)
(** ** Series: one column of a frame *)

Module Series.

Inductive numkind : Type := Float64 | Datetime64.

Inductive column : Type :=
| Numeric (k : numkind) (xs : list (option Q))
| Object (xs : list (option string))
| Boolean (xs : list bool).

Inductive dtype : Type := DFloat64 | DDatetime64 | DObject | DBool.

Definition dtype_of (c : column) : dtype :=
  match c with
  | Numeric Float64 _ => DFloat64
  | Numeric Datetime64 _ => DDatetime64
  | Object _ => DObject
  | Boolean _ => DBool
  end.

Definition len (c : column) : nat :=
  match c with
  | Numeric _ xs => length xs
  | Object xs => length xs
  | Boolean xs => length xs
  end.

(** The non-missing values, in row order. *)
Fixpoint dropna {A : Type} (xs : list (option A)) : list A :=
  match xs with
  | [] => []
  | Some v :: xs' => v :: dropna xs'
  | None :: xs' => dropna xs'
  end.

Definition isnull_cell {A : Type} (x : option A) : bool :=
  match x with None => true | Some _ => false end.

(** [s.isnull()] *)
Definition isnull (c : column) : list bool :=
  match c with
  | Numeric _ xs => map isnull_cell xs
  | Object xs => map isnull_cell xs
  | Boolean xs => map (fun _ => false) xs
  end.

(** The column has cells, and all of them are missing. *)
Definition all_missing {A : Type} (xs : list (option A)) : bool :=
  match xs, dropna xs with
  | _ :: _, [] => true
  | _, _ => false
  end.

(** [s.fillna(v)] with a value. *)
Definition fillna {A : Type} (v : A) (xs : list (option A)) : list (option A) :=
  map (fun x => match x with None => Some v | Some _ => x end) xs.

Definition Qsum (l : list Q) : Q := fold_right Qplus 0 l.

Definition of_nat (n : nat) : Q := inject_Z (Z.of_nat n).

(** [s.mean()], NaN on no values. *)
Definition mean (vs : list Q) : option Q :=
  match vs with
  | [] => None
  | _ => Some (Qsum vs / of_nat (length vs))
  end.

(** [s.median()]: middle of the sorted values, the average of the two
    middle ones for an even count. *)
Definition median (vs : list Q) : option Q :=
  let s := sort Qcompare vs in
  let n := length s in
  match n with
  | O => None
  | _ =>
      if Nat.even n
      then Some ((nth (n / 2 - 1) s 0 + nth (n / 2) s 0) / 2)
      else Some (nth (n / 2) s 0)
  end.

(** numpy's [_lerp(a, b, t)]: the point at fraction [t] from [a] to [b],
    taken from [b] in the upper half. *)
Definition lerp (a b t : F64.f64) : F64.f64 :=
  let diff_b_a := F64.sub b a in
  if F64.leb (F64.of_Q (1 # 2)) t
  then F64.sub b (F64.mul diff_b_a (F64.sub (F64.of_Z 1) t))
  else F64.add a (F64.mul diff_b_a t).

(** [s.quantile(q)] with the default linear interpolation, in float64 as
    [np.percentile] computes it: the sorted non-missing values are
    interpolated at the rank [(n - 1) * q], between the value at the floor
    of the rank and the next one; NaN on no values. *)
Definition quantile (q : Q) (vs : list Q) : F64.f64 :=
  let arr := sort F64.compare (map F64.of_Q vs) in
  match length arr with
  | O => F64.nan
  | S m =>
      let virtual_index := F64.mul (F64.of_nat m) (F64.of_Q q) in
      let previous_index := Z.to_nat (F64.floor virtual_index) in
      let gamma := F64.sub virtual_index (F64.of_nat previous_index) in
      let previous := nth previous_index arr F64.nan in
      let next := nth (S previous_index) arr previous in
      lerp previous next gamma
  end.

(** Keep the positions where the mask holds. *)
Fixpoint mask_filter {A : Type} (mask : list bool) (xs : list A) : list A :=
  match mask, xs with
  | true :: mask', x :: xs' => x :: mask_filter mask' xs'
  | false :: mask', _ :: xs' => mask_filter mask' xs'
  | _, _ => []
  end.

Definition filter_col (mask : list bool) (c : column) : column :=
  match c with
  | Numeric k xs => Numeric k (mask_filter mask xs)
  | Object xs => Object (mask_filter mask xs)
  | Boolean xs => Boolean (mask_filter mask xs)
  end.

(** Cells seen through one type, for comparing rows. *)
Inductive value : Type := VNum (q : Q) | VStr (s : string) | VBool (b : bool).

Definition cell : Type := option value.

Definition cells_of (c : column) : list cell :=
  match c with
  | Numeric _ xs => map (option_map VNum) xs
  | Object xs => map (option_map VStr) xs
  | Boolean xs => map (fun b => Some (VBool b)) xs
  end.

Definition value_eqb (u v : value) : bool :=
  match u, v with
  | VNum p, VNum q => Qeq_bool p q
  | VStr s, VStr t => String.eqb s t
  | VBool a, VBool b => Bool.eqb a b
  | _, _ => false
  end.

(** Equality of cells for duplicate detection: missing equals missing. *)
Definition cell_eqb (x y : cell) : bool :=
  match x, y with
  | Some u, Some v => value_eqb u v
  | None, None => true
  | _, _ => false
  end.

Fixpoint row_eqb (r s : list cell) : bool :=
  match r, s with
  | [], [] => true
  | x :: r', y :: s' => cell_eqb x y && row_eqb r' s'
  | _, _ => false
  end.

End Series.
Import Series.

(* ------------------------------------------------------------------ *)
(** ** DataFrame *)

Module Frame.

Record DataFrame : Type := mkDF {
  nrows : nat;                       (* len(df): the length of the index *)
  cols : list (string * column)      (* the columns, in order *)
}.

(** [df.columns] *)
Definition columns (df : DataFrame) : list string := map fst (cols df).

(** Every column is as long as the index. *)
Definition wf (df : DataFrame) : Prop :=
  Forall (fun nc => len (snd nc) = nrows df) (cols df).

(** [df.empty]: no rows or no columns. *)
Definition empty (df : DataFrame) : bool :=
  (nrows df =? 0) || match cols df with [] => true | _ => false end.

Definition mem (name : string) (names : list string) : bool :=
  existsb (String.eqb name) names.

(** Some name is listed more than once. *)
Fixpoint has_repeat (names : list string) : bool :=
  match names with
  | [] => false
  | n :: names' => mem n names' || has_repeat names'
  end.

Fixpoint lookup (name : string) (l : list (string * column)) : option column :=
  match l with
  | [] => None
  | (n, c) :: l' => if String.eqb n name then Some c else lookup name l'
  end.

(** [df[name]] *)
Definition getitem (df : DataFrame) (name : string) : result column :=
  match lookup name (cols df) with
  | Some c => Ok c
  | None => Raise KeyError
  end.

Fixpoint replace (name : string) (c : column) (l : list (string * column))
  : list (string * column) :=
  match l with
  | [] => [(name, c)]
  | (n, c0) :: l' =>
      if String.eqb n name then (n, c) :: l' else (n, c0) :: replace name c l'
  end.

(** [df[name] = series], the series carrying the index of [df]. *)
Definition setitem (df : DataFrame) (name : string) (c : column) : DataFrame :=
  mkDF (nrows df) (replace name c (cols df)).

(** [df[name] = array]: an array of another length is refused. *)
Definition setitem_array (df : DataFrame) (name : string) (c : column)
  : result DataFrame :=
  if len c =? nrows df then Ok (setitem df name c) else Raise ValueError.

(** [df[mask]]: the rows where the mask holds, in order. *)
Definition filter_rows (mask : list bool) (df : DataFrame) : DataFrame :=
  mkDF (length (mask_filter mask (seq 0 (nrows df))))
       (map (fun nc => (fst nc, filter_col mask (snd nc))) (cols df)).

Definition head_cell (c : column) : cell := hd None (cells_of c).

Definition tail_col (c : column) : column :=
  match c with
  | Numeric k xs => Numeric k (tl xs)
  | Object xs => Object (tl xs)
  | Boolean xs => Boolean (tl xs)
  end.

(** The first [n] rows of the columns [cs], each row a list of cells. *)
Fixpoint rows_of (cs : list column) (n : nat) : list (list cell) :=
  match n with
  | O => []
  | S n' => map head_cell cs :: rows_of (map tail_col cs) n'
  end.

(** The columns named in [subset], in frame order. *)
Definition select (subset : list string) (df : DataFrame) : list column :=
  map snd (filter (fun nc => mem (fst nc) subset) (cols df)).

(** A row is a duplicate when an equal row came before it. *)
Fixpoint duplicated_from (seen : list (list cell)) (rs : list (list cell))
  : list bool :=
  match rs with
  | [] => []
  | r :: rs' =>
      if existsb (row_eqb r) seen
      then true :: duplicated_from seen rs'
      else false :: duplicated_from (r :: seen) rs'
  end.

(** [df.duplicated(subset)], keep = first.  An unknown name is a
    KeyError; an empty subset leaves no key to group on (ValueError). *)
Definition duplicated (df : DataFrame) (subset : option (list string))
  : result (list bool) :=
  if empty df then Ok []
  else
    match subset with
    | None => Ok (duplicated_from [] (rows_of (map snd (cols df)) (nrows df)))
    | Some names =>
        if forallb (fun n => mem n (columns df)) names
        then match names with
             | [] => Raise ValueError
             | _ => Ok (duplicated_from [] (rows_of (select names df) (nrows df)))
             end
        else Raise KeyError
    end.

(** [df.drop_duplicates(subset)]: an empty frame is copied as it is. *)
Definition drop_duplicates (df : DataFrame) (subset : option (list string))
  : result DataFrame :=
  if empty df then Ok df
  else
    mask <- duplicated df subset ;;
    Ok (filter_rows (map negb mask) df).

(** [df.dropna(subset=names)]: a row stays when none of the named
    columns is missing in it. *)
Definition dropna_rows (df : DataFrame) (names : list string) : result DataFrame :=
  if forallb (fun n => mem n (columns df)) names
  then
    let sel := select names df in
    Ok (filter_rows
          (map (fun i => forallb (fun c => negb (nth i (isnull c) false)) sel)
               (seq 0 (nrows df)))
          df)
  else Raise KeyError.

(** [df.nunique()] of a column: distinct non-missing values. *)
Definition nunique (c : column) : nat :=
  match c with
  | Numeric _ xs => length (unique Qcompare (dropna xs))
  | Object xs => length (unique String.compare (dropna xs))
  | Boolean xs => length (unique Bool.compare xs)
  end.

Definition count_true (mask : list bool) : nat :=
  length (filter (fun b => b) mask).

End Frame.
Import Frame.

(* ------------------------------------------------------------------ *)
(** ** Statistics and encoders on a column *)

Module Stats.

(** [x < bound] and [x > bound] of a float cell against a float: false
    for a missing cell and for a NaN bound. *)
Definition lt_cell (x : option Q) (bound : F64.f64) : bool :=
  match x with
  | Some a => F64.ltb (F64.of_Q a) bound
  | None => false
  end.

Definition gt_cell (x : option Q) (bound : F64.f64) : bool :=
  match x with
  | Some a => F64.ltb bound (F64.of_Q a)
  | None => false
  end.

Definition Q_of_bool (b : bool) : Q := if b then 1 else 0.

(** The values a numeric reduction works on: a text column with a
    value in it is refused, one with no value at all reduces to NaN. *)
Definition as_floats (c : column) : result (list Q) :=
  match c with
  | Numeric _ xs => Ok (dropna xs)
  | Boolean bs => Ok (map Q_of_bool bs)
  | Object xs =>
      match dropna xs with
      | [] => Ok []
      | _ => Raise TypeError
      end
  end.

(** [s.mean()] *)
Definition series_mean (c : column) : result cell :=
  vs <- as_floats c ;; Ok (option_map VNum (mean vs)).

(** [s.median()] *)
Definition series_median (c : column) : result cell :=
  vs <- as_floats c ;; Ok (option_map VNum (median vs)).

(** [s.mode()[0]]: with no value there is no mode and label 0 is absent. *)
Definition series_mode0 (c : column) : result cell :=
  let m := match c with
           | Numeric _ xs => option_map VNum (mode Qcompare (dropna xs))
           | Object xs => option_map VStr (mode String.compare (dropna xs))
           | Boolean bs => option_map VBool (mode Bool.compare bs)
           end in
  match m with
  | Some v => Ok (Some v)
  | None => Raise KeyError
  end.

(** [s.fillna(v, inplace=True)] with the statistic of the same column.
    A boolean column has no cell to fill, and NaN leaves every missing
    cell missing; written into a text column that holds missing cells
    and no value, NaN leaves a column of NaN only, which pandas then
    holds as float64. *)
Definition series_fillna (v : cell) (c : column) : column :=
  match v, c with
  | Some (VNum q), Numeric k xs => Numeric k (fillna q xs)
  | Some (VStr s), Object xs => Object (fillna s xs)
  | None, Object xs =>
      if all_missing xs then Numeric Float64 (map (fun _ => None) xs) else c
  | _, _ => c
  end.

(** [s.quantile(q)]: numeric columns only. *)
Definition series_quantile (q : Q) (c : column) : result F64.f64 :=
  match c with
  | Numeric _ xs => Ok (quantile q (dropna xs))
  | _ => Raise TypeError
  end.

(** [s < bound] and [s > bound] against a float bound. *)
Definition series_lt (c : column) (bound : F64.f64) : list bool :=
  match c with
  | Numeric _ xs => map (fun x => lt_cell x bound) xs
  | Object xs => map (fun _ => false) xs
  | Boolean bs => map (fun _ => false) bs
  end.

Definition series_gt (c : column) (bound : F64.f64) : list bool :=
  match c with
  | Numeric _ xs => map (fun x => gt_cell x bound) xs
  | Object xs => map (fun _ => false) xs
  | Boolean bs => map (fun _ => false) bs
  end.

(** Element-wise [|] and [~] of boolean series. *)
Fixpoint mask_or (m1 m2 : list bool) : list bool :=
  match m1, m2 with
  | a :: m1', b :: m2' => (a || b) :: mask_or m1' m2'
  | _, _ => []
  end.

Definition mask_not (m : list bool) : list bool := map negb m.

(** [LabelEncoder().fit_transform(s)]: the classes are the distinct
    values in ascending order, a missing value last, and each cell
    becomes the position of its class. *)
Definition encode_with {A : Type} (cmp : A -> A -> comparison) (xs : list A)
  : list nat :=
  let classes := unique cmp xs in
  map (fun x => index_of cmp x classes) xs.

Definition label_codes (c : column) : list nat :=
  match c with
  | Numeric _ xs => encode_with (cmp_option Qcompare) xs
  | Object xs => encode_with (cmp_option String.compare) xs
  | Boolean bs => encode_with Bool.compare bs
  end.

Definition label_fit_transform (c : column) : column :=
  Numeric Float64 (map (fun n => Some (of_nat n)) (label_codes c)).

(** The spec's reading of label encoding: codes by first appearance. *)
Definition first_seen_codes {A : Type} (cmp : A -> A -> comparison)
    (xs : list A) : list nat :=
  let classes := first_seen cmp [] xs in
  map (fun x => index_of cmp x classes) xs.

Definition indicator {A : Type} (eqb : A -> A -> bool) (level : A)
    (xs : list (option A)) : column :=
  Boolean (map (fun x => match x with
                         | Some v => eqb v level
                         | None => false
                         end) xs).

End Stats.
Import Stats.

(* ------------------------------------------------------------------ *)
(** ** Library functions taken as given *)

Class Externals : Type := {
  (** [KNNImputer(n_neighbors=k).fit_transform(df[[col]])], flattened to
      the imputed column. *)
  knn_fit_transform : nat -> column -> result (list Q);
  (** [pd.to_datetime(s)] on a text column; raises when a cell does not
      parse. *)
  to_datetime : list (option string) -> result (list (option Q));
  to_datetime_length :
    forall xs ys, to_datetime xs = Ok ys -> length ys = length xs;
  (** [pd.to_numeric(s, downcast='float')] on a numeric column. *)
  to_numeric_downcast : list (option Q) -> list (option Q);
  to_numeric_length :
    forall xs, length (to_numeric_downcast xs) = length xs;
  (** [str(v)] of a float or a timestamp, used in indicator names. *)
  str_of_number : numkind -> Q -> string
}.

Definition str_of_bool (b : bool) : string :=
  if b then "True"%string else "False"%string.

(* ------------------------------------------------------------------ *)
(** ** The wrappers of [cleaning.py] *)

Module Cleaning.

(** A float as a report shows it. *)
Inductive float : Type := Finite (q : Q) | Inf | NaN.

(** [a / n] of a count by a length, as numpy divides: no exception on
    a zero divisor, [0 / 0] is NaN. *)
Definition true_divide (a n : nat) : float :=
  match n, a with
  | O, O => NaN
  | O, S _ => Inf
  | S _, _ => Finite (of_nat a / of_nat n)
  end.

Definition float_mul (x : float) (k : Q) : float :=
  match x with
  | Finite q => Finite (q * k)
  | Inf => Inf
  | NaN => NaN
  end.

Record report_row : Type := mkRow {
  Column : string;
  DataType : dtype;
  NonNullCount : nat;
  NullCount : nat;
  NullPercentage : float;
  UniqueValues : nat;
  DuplicateRows : nat
}.

(** What a call leaves behind: the caller's frame after the call and
    the value returned or the exception raised. *)
Record outcome (A : Type) : Type := mkOutcome {
  final : DataFrame;
  ret : result A
}.

(** [for col in names: body], the body ending in its one assignment. *)
Fixpoint for_each (body : string -> DataFrame -> result DataFrame)
    (names : list string) (df : DataFrame) : outcome unit :=
  match names with
  | [] => mkOutcome df (Ok tt)
  | col :: names' =>
      match body col df with
      | Ok df' => for_each body names' df'
      | Raise e => mkOutcome df (Raise e)
      end
  end.

(** The function ends in [return df]. *)
Definition returning_df (o : outcome unit) : outcome DataFrame :=
  mkOutcome (final o) (_ <- ret o ;; Ok (final o)).

(** A call that does not touch its argument. *)
Definition pure_call {A : Type} (df : DataFrame) (r : result A) : outcome A :=
  mkOutcome df r.

Section Wrappers.

Context {E : Externals}.

(** [data_quality_report(df)], lines 7-26. *)
Definition data_quality_report (df : DataFrame) : result (list report_row) :=
  dups <- duplicated df None ;;
  Ok (map (fun nc =>
             let c := snd nc in
             mkRow (fst nc)
                   (dtype_of c)
                   (count_true (map negb (isnull c)))
                   (count_true (isnull c))
                   (float_mul (true_divide (count_true (isnull c)) (nrows df)) 100)
                   (nunique c)
                   (count_true dups))
          (cols df)).

(** The body of the imputation loop, lines 74-82. *)
Definition impute_step (strategy : string) (knn_neighbors : nat)
    (col : string) (df : DataFrame) : result DataFrame :=
  if String.eqb strategy "mean" then
    c <- getitem df col ;;
    m <- series_mean c ;;
    Ok (setitem df col (series_fillna m c))
  else if String.eqb strategy "median" then
    c <- getitem df col ;;
    m <- series_median c ;;
    Ok (setitem df col (series_fillna m c))
  else if String.eqb strategy "mode" then
    c <- getitem df col ;;
    m <- series_mode0 c ;;
    Ok (setitem df col (series_fillna m c))
  else if String.eqb strategy "knn" then
    c <- getitem df col ;;
    ys <- knn_fit_transform knn_neighbors c ;;
    setitem_array df col (Numeric Float64 (map (@Some Q) ys))
  else Ok df.

(** [handle_missing_values(df, strategy, columns, knn_neighbors)],
    lines 55-84. *)
Definition handle_missing_values (df : DataFrame) (strategy : string)
    (columns : option (list string)) (knn_neighbors : nat)
  : outcome DataFrame :=
  let columns :=
    match columns with
    | Some names => if truthy columns then names else Frame.columns df
    | None => Frame.columns df
    end in
  if String.eqb strategy "drop" then
    pure_call df (dropna_rows df columns)
  else
    returning_df (for_each (impute_step strategy knn_neighbors) columns df).

(** [remove_duplicates(df, subset)], lines 103-114. *)
Definition remove_duplicates (df : DataFrame) (subset : option (list string))
  : result DataFrame :=
  drop_duplicates df subset.

(** [detect_outliers_iqr(df, column)], lines 126-142. *)
Definition detect_outliers_iqr (df : DataFrame) (column : string)
  : result (list bool) :=
  c <- getitem df column ;;
  Q1 <- series_quantile (1 # 4) c ;;
  Q3 <- series_quantile (3 # 4) c ;;
  let IQR := F64.sub Q3 Q1 in
  let lower_bound := F64.sub Q1 (F64.mul (F64.of_Q (3 # 2)) IQR) in
  let upper_bound := F64.add Q3 (F64.mul (F64.of_Q (3 # 2)) IQR) in
  Ok (mask_or (series_lt c lower_bound) (series_gt c upper_bound)).

(** [remove_outliers(df, column)], lines 144-156. *)
Definition remove_outliers (df : DataFrame) (column : string)
  : result DataFrame :=
  outliers <- detect_outliers_iqr df column ;;
  Ok (filter_rows (mask_not outliers) df).

(** [pd.to_datetime(df[col])] *)
Definition series_to_datetime (c : column) : result column :=
  match c with
  | Object xs => ys <- to_datetime xs ;; Ok (Numeric Datetime64 ys)
  | Numeric _ xs => Ok (Numeric Datetime64 xs)
  | Boolean _ => Raise TypeError
  end.

(** [pd.to_numeric(df[col], downcast='float')] *)
Definition series_to_numeric (c : column) : column :=
  match c with
  | Numeric k xs => Numeric k (to_numeric_downcast xs)
  | _ => c
  end.

(** [df.select_dtypes(include=...).columns] *)
Definition select_dtypes (keep : dtype -> bool) (df : DataFrame) : list string :=
  map fst (filter (fun nc => keep (dtype_of (snd nc))) (cols df)).

Definition is_object (d : dtype) : bool :=
  match d with DObject => true | _ => false end.

Definition is_int_or_float (d : dtype) : bool :=
  match d with DFloat64 => true | _ => false end.

(** The first loop of [convert_dtypes]: [try: ... except: pass]. *)
Definition try_datetime (df : DataFrame) (col : string) : DataFrame :=
  match (c <- getitem df col ;;
         d <- series_to_datetime c ;;
         Ok (setitem df col d)) with
  | Ok df' => df'
  | Raise _ => df
  end.

(** The second loop of [convert_dtypes]. *)
Definition downcast_step (df : DataFrame) (col : string) : DataFrame :=
  match getitem df col with
  | Ok c => setitem df col (series_to_numeric c)
  | Raise _ => df
  end.

(** [convert_dtypes(df)], lines 169-186. *)
Definition convert_dtypes (df : DataFrame) : outcome DataFrame :=
  let df1 := fold_left try_datetime (select_dtypes is_object df) df in
  let df2 := fold_left downcast_step (select_dtypes is_int_or_float df1) df1 in
  mkOutcome df2 (Ok df2).

(** The indicator columns of one column, first level dropped. *)
Definition dummies_1d (name : string) (c : column) : list (string * column) :=
  match c with
  | Object xs =>
      map (fun l => ((name ++ "_" ++ l)%string, indicator String.eqb l xs))
          (tl (unique String.compare (dropna xs)))
  | Numeric k xs =>
      map (fun l => ((name ++ "_" ++ str_of_number k l)%string,
                     indicator Qeq_bool l xs))
          (tl (unique Qcompare (dropna xs)))
  | Boolean bs =>
      map (fun l => ((name ++ "_" ++ str_of_bool l)%string,
                     Boolean (map (fun b => Bool.eqb b l) bs)))
          (tl (unique Bool.compare bs))
  end.

Fixpoint getitems (df : DataFrame) (names : list string)
  : result (list (string * column)) :=
  match names with
  | [] => Ok []
  | n :: names' =>
      c <- getitem df n ;;
      rest <- getitems df names' ;;
      Ok ((n, c) :: rest)
  end.

(** [pd.get_dummies(df, columns=names, drop_first=True)]: the other
    columns first, then the indicators of each named column.  The named
    columns are selected first, which fails on an unknown name; a name
    listed twice selects its column twice, and the encoding of such a
    selection ends in AttributeError. *)
Definition get_dummies (df : DataFrame) (names : list string)
  : result DataFrame :=
  data_to_encode <- getitems df names ;;
  if has_repeat names then Raise AttributeError
  else
    Ok (mkDF (nrows df)
             (filter (fun nc => negb (mem (fst nc) names)) (cols df)
              ++ flat_map (fun nc => dummies_1d (fst nc) (snd nc))
                   data_to_encode)).

(** The body of the label loop, line 216. *)
Definition label_step (col : string) (df : DataFrame) : result DataFrame :=
  c <- getitem df col ;;
  setitem_array df col (label_fit_transform c).

(** [encode_categorical(df, columns, encoding_type)], lines 198-217. *)
Definition encode_categorical (df : DataFrame) (columns : list string)
    (encoding_type : string) : outcome DataFrame :=
  if String.eqb encoding_type "one_hot" then
    pure_call df (get_dummies df columns)
  else if String.eqb encoding_type "label" then
    returning_df (for_each label_step columns df)
  else
    mkOutcome df (Ok df).

(** The cleaning stages and their application to a dataset.  The two
    inspections hand the dataset on as it is. *)
Inductive stage : Type :=
| QualityReport
| MissingValues (strategy : string) (columns : option (list string))
                (knn_neighbors : nat)
| DetectOutliers (column : string)
| RemoveOutliers (column : string)
| RemoveDuplicates (subset : option (list string))
| ConvertDtypes
| EncodeCategorical (columns : list string) (encoding_type : string).

Definition apply_stage (s : stage) (df : DataFrame) : outcome DataFrame :=
  match s with
  | QualityReport =>
      pure_call df (_ <- data_quality_report df ;; Ok df)
  | MissingValues strategy columns k =>
      handle_missing_values df strategy columns k
  | DetectOutliers column =>
      pure_call df (_ <- detect_outliers_iqr df column ;; Ok df)
  | RemoveOutliers column => pure_call df (remove_outliers df column)
  | RemoveDuplicates subset => pure_call df (remove_duplicates df subset)
  | ConvertDtypes => convert_dtypes df
  | EncodeCategorical columns encoding_type =>
      encode_categorical df columns encoding_type
  end.

(** The stages that may take rows away. *)
Definition removes_rows (s : stage) : bool :=
  match s with
  | MissingValues strategy _ _ => String.eqb strategy "drop"
  | RemoveOutliers _ => true
  | RemoveDuplicates _ => true
  | _ => false
  end.

(** The stages that assign into the caller's frame column by column. *)
Definition in_place (s : stage) : bool :=
  match s with
  | MissingValues strategy _ _ => negb (String.eqb strategy "drop")
  | EncodeCategorical _ encoding_type => String.eqb encoding_type "label"
  | ConvertDtypes => true
  | _ => false
  end.

(** The column list [handle_missing_values] works on. *)
Definition resolved_columns (df : DataFrame) (columns : option (list string))
  : list string :=
  match columns with
  | Some (n :: names) => n :: names
  | _ => Frame.columns df
  end.

(** The loop of an in-place stage: the names it runs over and its body. *)
Definition loop_names (s : stage) (df : DataFrame) : list string :=
  match s with
  | MissingValues _ columns _ => resolved_columns df columns
  | EncodeCategorical columns _ => columns
  | _ => []
  end.

Definition loop_body (s : stage) : string -> DataFrame -> result DataFrame :=
  match s with
  | MissingValues strategy _ k => impute_step strategy k
  | EncodeCategorical _ _ => label_step
  | _ => fun _ df => Ok df
  end.

End Wrappers.

End Cleaning.
Import Cleaning.

(* ------------------------------------------------------------------ *)
(** ** One instance of the library functions

    Single-column KNN imputation finds no neighbour with a defined
    distance and falls back to the column mean; the date parser accepts
    only missing cells; the downcast keeps the values. *)

Definition mean_impute (k : nat) (c : column) : result (list Q) :=
  match c with
  | Numeric _ xs =>
      match mean (dropna xs) with
      | Some m => Ok (map (fun x => match x with Some v => v | None => m end) xs)
      | None => Raise ValueError
      end
  | _ => Raise ValueError
  end.

Definition parse_missing_only (xs : list (option string))
  : result (list (option Q)) :=
  match dropna xs with
  | [] => Ok (map (fun _ => None) xs)
  | _ => Raise ValueError
  end.

Lemma parse_missing_only_length :
  forall xs ys, parse_missing_only xs = Ok ys -> length ys = length xs.
Proof.
  intros xs ys. unfold parse_missing_only.
  destruct (dropna xs); intros H; inversion H; subst.
  apply length_map.
Qed.

#[export] Instance reference_externals : Externals := {
  knn_fit_transform := mean_impute;
  to_datetime := parse_missing_only;
  to_datetime_length := parse_missing_only_length;
  to_numeric_downcast := fun xs => xs;
  to_numeric_length := fun xs => eq_refl;
  str_of_number := fun _ _ => "n"%string
}.

(* ------------------------------------------------------------------ *)
(** ** Sample frames *)

Module Samples.

Open Scope string_scope.

(** A numeric column with a hole next to a text column with a hole. *)
Definition people : DataFrame :=
  mkDF 4 [("age", Numeric Float64 [Some 1; Some 2; None; Some 4]);
          ("city", Object [Some "b"; None; Some "a"; Some "b"])].

(** A frame with columns and no row. *)
Definition no_rows : DataFrame :=
  mkDF 0 [("age", Numeric Float64 []); ("city", Object [])].

Definition salaries : DataFrame :=
  mkDF 10 [("salary",
            Numeric Float64 [Some 10; Some 12; Some 12; Some 13; Some 12;
                             Some 11; Some 14; Some 13; Some 15; Some 102])].

Definition salary_cells : list (option Q) :=
  [Some 10; Some 12; Some 12; Some 13; Some 12;
   Some 11; Some 14; Some 13; Some 15; Some 102].

(** Tenths, which float64 holds rounded, and two values whose difference
    is beyond the float64 range. *)
Definition tenth_cells : list (option Q) :=
  [Some 0; Some (1 # 10); Some (1 # 10); Some (2 # 10)].

Definition tenths : DataFrame :=
  mkDF 4 [("x", Numeric Float64 tenth_cells)].

Definition extreme_cells : list (option Q) :=
  [Some (- 10 ^ 308); Some (10 ^ 308)].

Definition extremes : DataFrame :=
  mkDF 2 [("x", Numeric Float64 extreme_cells)].

(** A text column nobody filled in, before and after mean imputation. *)
Definition unanswered : DataFrame :=
  mkDF 2 [("t", Object [None; None])].

Definition unanswered_filled : DataFrame :=
  mkDF 2 [("t", Numeric Float64 [None; None])].

Definition colors : DataFrame :=
  mkDF 4 [("color", Object [Some "red"; Some "green"; Some "blue"; Some "red"]);
          ("n", Numeric Float64 [Some 1; Some 2; None; Some 4])].

Definition repeated : DataFrame :=
  mkDF 4 [("a", Numeric Float64 [Some 1; Some (2 # 2); None; None]);
          ("b", Object [Some "x"; Some "x"; None; None])].

(** The column 1, 2, missing, 4. *)
Definition scores : DataFrame :=
  mkDF 4 [("x", Numeric Float64 [Some 1; Some 2; None; Some 4])].

Definition scores_filled : DataFrame :=
  mkDF 4 [("x", Numeric Float64 [Some 1; Some 2; Some (7 # 3); Some 4])].

Definition colors_encoded : DataFrame :=
  mkDF 4 [("n", Numeric Float64 [Some 1; Some 2; None; Some 4]);
          ("color_green", Boolean [false; true; false; false]);
          ("color_red", Boolean [true; false; false; true])].

End Samples.

(** The strategy and encoding names the docstrings list. *)
Definition supported_strategies : list string :=
  ["mean"; "median"; "mode"; "drop"; "knn"]%string.

Definition supported_encodings : list string :=
  ["one_hot"; "label"]%string.

(* ================================================================== *)
(** * Properties *)

Local Open Scope nat_scope.

(** ** Lists, masks and frames *)

Lemma mask_filter_length_le :
  forall (A : Type) (mask : list bool) (xs : list A),
    length (mask_filter mask xs) <= length xs.
Proof.
  intros A mask. induction mask as [|b mask IH]; intros xs.
  - simpl. lia.
  - destruct xs as [|x xs]; destruct b; simpl; try lia;
      specialize (IH xs); lia.
Qed.

Lemma mask_filter_length_eq :
  forall (A B : Type) (mask : list bool) (xs : list A) (ys : list B),
    length xs = length ys ->
    length (mask_filter mask xs) = length (mask_filter mask ys).
Proof.
  intros A B mask. induction mask as [|b mask IH]; intros xs ys Hlen.
  - reflexivity.
  - destruct xs as [|x xs], ys as [|y ys]; simpl in Hlen; try discriminate.
    + destruct b; reflexivity.
    + injection Hlen as Hlen. destruct b; simpl; auto.
Qed.

Lemma filter_col_len :
  forall mask c n,
    len c = n ->
    len (filter_col mask c) = length (mask_filter mask (seq 0 n)).
Proof.
  intros mask c n Hlen.
  destruct c; simpl in *; apply mask_filter_length_eq;
    rewrite length_seq; exact Hlen.
Qed.

Lemma filter_rows_wf :
  forall mask df, wf df -> wf (filter_rows mask df).
Proof.
  intros mask df Hwf. unfold wf, filter_rows in *. simpl.
  rewrite Forall_map. eapply Forall_impl; [|exact Hwf].
  intros [n c] Hlen. simpl in *. apply filter_col_len. exact Hlen.
Qed.

Lemma filter_rows_nrows :
  forall mask df, nrows (filter_rows mask df) <= nrows df.
Proof.
  intros mask df. simpl.
  pose proof (mask_filter_length_le mask (seq 0 (nrows df))) as H.
  rewrite length_seq in H. exact H.
Qed.

Lemma lookup_In :
  forall name l c, lookup name l = Some c -> exists n, In (n, c) l.
Proof.
  intros name l. induction l as [|[n c0] l IH]; intros c H; simpl in H.
  - discriminate.
  - destruct (String.eqb n name).
    + injection H as <-. exists n. left. reflexivity.
    + destruct (IH c H) as [m Hm]. exists m. right. exact Hm.
Qed.

Lemma getitem_len :
  forall df name c, wf df -> getitem df name = Ok c -> len c = nrows df.
Proof.
  intros df name c Hwf H. unfold getitem in H.
  destruct (lookup name (cols df)) as [c0|] eqn:Hl; inversion H; subst.
  destruct (lookup_In _ _ Hl) as [n Hn].
  unfold wf in Hwf. rewrite Forall_forall in Hwf.
  exact (Hwf _ Hn).
Qed.

Lemma replace_Forall :
  forall (P : string * column -> Prop) name c l,
    Forall P l -> (forall n, P (n, c)) -> Forall P (replace name c l).
Proof.
  intros P name c l Hl Hc. induction Hl as [|[n c0] l Hx Hl IH]; simpl.
  - constructor; [apply Hc | constructor].
  - destruct (String.eqb n name); constructor; auto.
Qed.

Lemma setitem_wf :
  forall df name c, wf df -> len c = nrows df -> wf (setitem df name c).
Proof.
  intros df name c Hwf Hlen. unfold wf, setitem. simpl.
  apply replace_Forall; [exact Hwf | intros n; exact Hlen].
Qed.

Lemma setitem_array_ok :
  forall df name c df',
    setitem_array df name c = Ok df' ->
    df' = setitem df name c /\ len c = nrows df.
Proof.
  intros df name c df' H. unfold setitem_array in H.
  destruct (len c =? nrows df) eqn:Hlen; inversion H.
  apply Nat.eqb_eq in Hlen. auto.
Qed.

Lemma series_fillna_len :
  forall v c, len (series_fillna v c) = len c.
Proof.
  intros v c. unfold series_fillna, fillna.
  destruct v as [[q|s|b]|], c as [k xs|xs|bs]; simpl; try reflexivity;
    try apply length_map.
  destruct (all_missing xs); simpl; [apply length_map | reflexivity].
Qed.

Lemma encode_with_length :
  forall (A : Type) (cmp : A -> A -> comparison) (xs : list A),
    length (encode_with cmp xs) = length xs.
Proof. intros. unfold encode_with. apply length_map. Qed.

Lemma label_fit_transform_len :
  forall c, len (label_fit_transform c) = len c.
Proof.
  intros c. unfold label_fit_transform, label_codes. simpl.
  rewrite length_map. destruct c; apply encode_with_length.
Qed.

(** ** Loops over column names *)

Section Loops.

Variable body : string -> DataFrame -> result DataFrame.

(** An invariant of the body is an invariant of the loop, raised or not. *)
Lemma for_each_invariant :
  forall (P : DataFrame -> Prop),
    (forall col df df', P df -> body col df = Ok df' -> P df') ->
    forall names df, P df -> P (final (for_each body names df)).
Proof.
  intros P Hbody names. induction names as [|col names IH]; intros df HP.
  - exact HP.
  - simpl. destruct (body col df) as [df'|e] eqn:Hb.
    + apply IH. eapply Hbody; eauto.
    + exact HP.
Qed.

(** A raising loop stopped at its first raising name, with the frame as
    the names before it left it. *)
Lemma for_each_raise :
  forall names df e,
    ret (for_each body names df) = Raise e ->
    exists done failing rest,
      names = done ++ failing :: rest
      /\ for_each body done df
         = mkOutcome (final (for_each body names df)) (Ok tt)
      /\ body failing (final (for_each body names df)) = Raise e.
Proof.
  induction names as [|col names IH]; intros df e H.
  - simpl in H. discriminate.
  - simpl in *. destruct (body col df) as [df'|e'] eqn:Hb.
    + destruct (IH df' e H) as (done & failing & rest & Hn & Hd & Hf).
      exists (col :: done), failing, rest. split; [|split].
      * rewrite Hn. reflexivity.
      * simpl. rewrite Hb. exact Hd.
      * exact Hf.
    + simpl in H. injection H as ->.
      exists [], col, names. simpl. auto.
Qed.

Lemma for_each_skip :
  (forall col df, body col df = Ok df) ->
  forall names df, for_each body names df = mkOutcome df (Ok tt).
Proof.
  intros Hbody names. induction names as [|col names IH]; intros df.
  - reflexivity.
  - simpl. rewrite Hbody. apply IH.
Qed.

End Loops.

Lemma eqb_false_of_not_In :
  forall (s t : string) (l : list string),
    ~ In s l -> In t l -> String.eqb s t = false.
Proof.
  intros s t l Hn Hin. apply String.eqb_neq. intros ->. exact (Hn Hin).
Qed.

Section StageProperties.

Context {E : Externals}.

Lemma impute_step_keeps :
  forall strategy k col df df',
    wf df -> impute_step strategy k col df = Ok df' ->
    wf df' /\ nrows df' = nrows df.
Proof.
  intros strategy k col df df' Hwf H. unfold impute_step in H.
  repeat match type of H with
  | (if ?b then _ else _) = _ => destruct b
  end;
  try (destruct (getitem df col) as [c|] eqn:Hc; simpl in H; [|discriminate]).
  - destruct (series_mean c) as [m|]; simpl in H; [|discriminate].
    injection H as <-. split; [|reflexivity].
    apply setitem_wf; [exact Hwf|].
    rewrite series_fillna_len. eapply getitem_len; eauto.
  - destruct (series_median c) as [m|]; simpl in H; [|discriminate].
    injection H as <-. split; [|reflexivity].
    apply setitem_wf; [exact Hwf|].
    rewrite series_fillna_len. eapply getitem_len; eauto.
  - destruct (series_mode0 c) as [m|]; simpl in H; [|discriminate].
    injection H as <-. split; [|reflexivity].
    apply setitem_wf; [exact Hwf|].
    rewrite series_fillna_len. eapply getitem_len; eauto.
  - destruct (knn_fit_transform k c) as [ys|]; simpl in H; [|discriminate].
    apply setitem_array_ok in H. destruct H as [-> Hlen].
    split; [|reflexivity]. apply setitem_wf; assumption.
  - injection H as <-. auto.
Qed.

Lemma label_step_keeps :
  forall col df df',
    wf df -> label_step col df = Ok df' ->
    wf df' /\ nrows df' = nrows df.
Proof.
  intros col df df' Hwf H. unfold label_step in H.
  destruct (getitem df col) as [c|] eqn:Hc; simpl in H; [|discriminate].
  apply setitem_array_ok in H. destruct H as [-> Hlen].
  split; [|reflexivity]. apply setitem_wf; assumption.
Qed.

Lemma loop_keeps :
  forall body,
    (forall col df df', wf df -> body col df = Ok df' ->
                        wf df' /\ nrows df' = nrows df) ->
    forall names df,
      wf df ->
      wf (final (for_each body names df))
      /\ nrows (final (for_each body names df)) = nrows df.
Proof.
  intros body Hbody names df Hwf.
  apply (for_each_invariant body
           (fun d => wf d /\ nrows d = nrows df)); [|auto].
  intros col d d' [Hd Hn] Hb.
  destruct (Hbody col d d' Hd Hb) as [Hd' Hn'].
  split; [exact Hd' | congruence].
Qed.

Lemma try_datetime_keeps :
  forall df col, wf df ->
    wf (try_datetime df col) /\ nrows (try_datetime df col) = nrows df.
Proof.
  intros df col Hwf. unfold try_datetime.
  destruct (getitem df col) as [c|] eqn:Hc; simpl; [|auto].
  pose proof (getitem_len _ Hwf Hc) as Hlen.
  destruct c as [k xs|xs|bs]; simpl; auto.
  - split; [|reflexivity]. apply setitem_wf; [exact Hwf | exact Hlen].
  - destruct (to_datetime xs) as [ys|] eqn:Hy; simpl; auto.
    split; [|reflexivity]. apply setitem_wf; [exact Hwf|].
    simpl. rewrite (to_datetime_length _ Hy). exact Hlen.
Qed.

Lemma downcast_step_keeps :
  forall df col, wf df ->
    wf (downcast_step df col) /\ nrows (downcast_step df col) = nrows df.
Proof.
  intros df col Hwf. unfold downcast_step.
  destruct (getitem df col) as [c|] eqn:Hc; [|auto].
  pose proof (getitem_len _ Hwf Hc) as Hlen.
  split; [|reflexivity]. apply setitem_wf; [exact Hwf|].
  destruct c; simpl in *; auto. rewrite to_numeric_length. exact Hlen.
Qed.

Lemma fold_left_keeps :
  forall (step : DataFrame -> string -> DataFrame),
    (forall df col, wf df -> wf (step df col) /\ nrows (step df col) = nrows df) ->
    forall names df, wf df ->
      wf (fold_left step names df)
      /\ nrows (fold_left step names df) = nrows df.
Proof.
  intros step Hstep names. induction names as [|col names IH]; intros df Hwf.
  - auto.
  - simpl. destruct (Hstep df col Hwf) as [H1 H2].
    destruct (IH _ H1) as [H3 H4]. split; [exact H3 | congruence].
Qed.

Lemma convert_dtypes_keeps :
  forall df, wf df ->
    wf (final (convert_dtypes df))
    /\ nrows (final (convert_dtypes df)) = nrows df.
Proof.
  intros df Hwf. unfold convert_dtypes. simpl.
  destruct (fold_left_keeps try_datetime try_datetime_keeps
              (select_dtypes is_object df) Hwf) as [H1 H2].
  destruct (fold_left_keeps downcast_step downcast_step_keeps
              (select_dtypes is_int_or_float
                 (fold_left try_datetime (select_dtypes is_object df) df)) H1)
    as [H3 H4].
  split; [exact H3 | congruence].
Qed.

Lemma dummies_1d_len :
  forall name c,
    Forall (fun nc => len (snd nc) = len c) (dummies_1d name c).
Proof.
  intros name c. unfold dummies_1d, indicator.
  destruct c as [k xs|xs|bs]; rewrite Forall_map; apply Forall_forall;
    intros l _; simpl; apply length_map.
Qed.

Lemma getitems_len :
  forall df names l,
    wf df -> getitems df names = Ok l ->
    Forall (fun nc => len (snd nc) = nrows df) l.
Proof.
  intros df names. induction names as [|n names IH]; intros l Hwf H.
  - injection H as <-. constructor.
  - simpl in H.
    destruct (getitem df n) as [c|] eqn:Hc; simpl in H; [|discriminate].
    destruct (getitems df names) as [rest|] eqn:Hr; simpl in H; [|discriminate].
    injection H as <-. constructor.
    + simpl. eapply getitem_len; eauto.
    + apply IH; auto.
Qed.

Lemma get_dummies_keeps :
  forall df names df',
    wf df -> get_dummies df names = Ok df' ->
    wf df' /\ nrows df' = nrows df.
Proof.
  intros df names df' Hwf H. unfold get_dummies in H.
  destruct (getitems df names) as [l|] eqn:Hl; simpl in H; [|discriminate].
  destruct (has_repeat names); [discriminate|].
  injection H as <-. split; [|reflexivity].
  unfold wf. simpl. apply Forall_app. split.
  - apply Forall_forall. intros nc Hin. apply filter_In in Hin.
    unfold wf in Hwf. rewrite Forall_forall in Hwf. apply Hwf. tauto.
  - pose proof (getitems_len _ Hwf Hl) as Hlen.
    apply Forall_flat_map. eapply Forall_impl; [|exact Hlen].
    intros [n c] Hc. simpl in *.
    eapply Forall_impl; [|apply dummies_1d_len].
    intros nc Hnc. simpl in *. congruence.
Qed.

(** C1.  Applied to a well-formed dataset, a cleaning stage leaves the
    caller's dataset well formed with its row count, and the dataset it
    returns is well formed with no more rows than the input; only
    drop-strategy missing-value handling, outlier removal and duplicate
    removal can return a different row count. *)
Theorem C1_row_count :
  forall (s : stage) (df : DataFrame),
    wf df ->
    (wf (final (apply_stage s df))
     /\ nrows (final (apply_stage s df)) = nrows df)
    /\ forall df',
         ret (apply_stage s df) = Ok df' ->
         wf df'
         /\ nrows df' <= nrows df
         /\ (nrows df' <> nrows df -> removes_rows s = true).
Proof.
  intros s df Hwf.
  assert (Hsame : forall d : DataFrame,
             wf d /\ nrows d = nrows df ->
             wf d /\ nrows d <= nrows df
             /\ (nrows d <> nrows df -> removes_rows s = true)).
  { intros d [H1 H2]. split; [exact H1|]. split; [lia|]. intros Hne. lia. }
  assert (Hfilter : forall mask,
             removes_rows s = true ->
             wf (filter_rows mask df)
             /\ nrows (filter_rows mask df) <= nrows df
             /\ (nrows (filter_rows mask df) <> nrows df ->
                 removes_rows s = true)).
  { intros mask Hr. split; [apply filter_rows_wf; exact Hwf|].
    split; [apply filter_rows_nrows | intros _; exact Hr]. }
  destruct s as [|strategy columns k|column|column|subset| |columns enc];
    simpl; simpl in Hsame, Hfilter.
  - (* quality report *)
    split; [auto|]. intros df' H.
    destruct (data_quality_report df); simpl in H; [|discriminate].
    injection H as <-. apply Hsame. auto.
  - (* missing values *)
    unfold handle_missing_values.
    destruct (String.eqb strategy "drop") eqn:Hdrop; simpl.
    + split; [auto|]. intros df' H. unfold dropna_rows in H.
      match type of H with (if ?b then _ else _) = _ => destruct b end;
        [|discriminate].
      injection H as <-. apply Hfilter. reflexivity.
    + match goal with
      | |- context [for_each ?b ?n df] =>
          pose proof (loop_keeps b (impute_step_keeps strategy k) n Hwf) as Hk;
          destruct (for_each b n df) as [fin r] eqn:Hloop
      end.
      simpl in *. split; [exact Hk|]. intros df' H.
      destruct r; simpl in H; [|discriminate].
      injection H as <-. apply Hsame. exact Hk.
  - (* outlier detection *)
    split; [auto|]. intros df' H.
    destruct (detect_outliers_iqr df column); simpl in H; [|discriminate].
    injection H as <-. apply Hsame. auto.
  - (* outlier removal *)
    split; [auto|]. intros df' H. unfold remove_outliers in H.
    destruct (detect_outliers_iqr df column); simpl in H; [|discriminate].
    injection H as <-. apply Hfilter. reflexivity.
  - (* duplicate removal *)
    split; [auto|]. intros df' H.
    unfold remove_duplicates, drop_duplicates in H.
    destruct (empty df).
    + injection H as <-. apply Hsame. auto.
    + destruct (duplicated df subset); simpl in H; [|discriminate].
      injection H as <-. apply Hfilter. reflexivity.
  - (* type conversion *)
    pose proof (convert_dtypes_keeps Hwf) as Hk. simpl in Hk.
    split; [exact Hk|]. intros df' H. injection H as <-.
    apply Hsame. exact Hk.
  - (* categorical encoding *)
    unfold encode_categorical.
    destruct (String.eqb enc "one_hot"); simpl.
    + split; [auto|]. intros df' H. apply Hsame.
      eapply get_dummies_keeps; eauto.
    + destruct (String.eqb enc "label"); simpl.
      * pose proof (loop_keeps label_step label_step_keeps columns Hwf) as Hk.
        destruct (for_each label_step columns df) as [fin r] eqn:Hloop.
        simpl in *. split; [exact Hk|]. intros df' H.
        destruct r; simpl in H; [|discriminate].
        injection H as <-. apply Hsame. exact Hk.
      * split; [auto|]. intros df' H. injection H as <-. apply Hsame. auto.
Qed.

End StageProperties.

(** ** Failures, unknown names and the empty dataset *)

Section Failures.

Context {E : Externals}.

Lemma handle_missing_values_unfold :
  forall df strategy columns k,
    handle_missing_values df strategy columns k =
    if String.eqb strategy "drop"
    then pure_call df (dropna_rows df (resolved_columns df columns))
    else returning_df
           (for_each (impute_step strategy k) (resolved_columns df columns) df).
Proof.
  intros df strategy columns k. unfold handle_missing_values.
  destruct columns as [[|n names]|]; reflexivity.
Qed.

(** C2, as the code has it.  A raising call of a stage that does not
    assign in place leaves the caller's dataset as it was.  A raising call
    of an in-place stage (mean, median, mode or knn imputation, label
    encoding) stopped at the first column whose step raised, and left the
    dataset as the steps of the columns before it made it. *)
Theorem C2_state_after_failure :
  forall (s : stage) (df : DataFrame) (e : exn),
    ret (apply_stage s df) = Raise e ->
    if in_place s
    then exists done failing rest,
        loop_names s df = done ++ failing :: rest
        /\ for_each (loop_body s) done df
           = mkOutcome (final (apply_stage s df)) (Ok tt)
        /\ loop_body s failing (final (apply_stage s df)) = Raise e
    else final (apply_stage s df) = df.
Proof.
  intros s df e H.
  destruct s as [|strategy columns k|column|column|subset| |columns enc];
    simpl in *; try reflexivity.
  - rewrite handle_missing_values_unfold in *.
    destruct (String.eqb strategy "drop"); simpl in *; [reflexivity|].
    apply for_each_raise.
    destruct (ret (for_each (impute_step strategy k)
                     (resolved_columns df columns) df));
      simpl in H; [discriminate | congruence].
  - discriminate.
  - unfold encode_categorical in *.
    destruct (String.eqb_spec enc "one_hot") as [->|Hne]; [reflexivity|].
    destruct (String.eqb enc "label"); simpl in H; simpl; [|discriminate].
    + apply for_each_raise.
      destruct (ret (for_each label_step columns df));
        simpl in H; [discriminate | congruence].
Qed.

(** C9, as the code has it.  A strategy name outside the supported ones
    makes [handle_missing_values] return the dataset untouched, and an
    encoding name outside the supported ones makes [encode_categorical]
    return the dataset untouched; neither call raises. *)
Theorem C9_unsupported_names_pass_through :
  forall (df : DataFrame) (strategy : string) (columns : option (list string))
         (k : nat) (names : list string) (encoding_type : string),
    ~ In strategy supported_strategies ->
    ~ In encoding_type supported_encodings ->
    handle_missing_values df strategy columns k = mkOutcome df (Ok df)
    /\ encode_categorical df names encoding_type = mkOutcome df (Ok df).
Proof.
  intros df strategy columns k names enc Hs He.
  assert (Hne : forall t, In t supported_strategies ->
                          String.eqb strategy t = false).
  { intros t Ht. eapply eqb_false_of_not_In; eauto. }
  assert (Hme : forall t, In t supported_encodings ->
                          String.eqb enc t = false).
  { intros t Ht. eapply eqb_false_of_not_In; eauto. }
  split.
  - rewrite handle_missing_values_unfold.
    rewrite (Hne "drop"%string) by (simpl; tauto).
    rewrite for_each_skip; [reflexivity|].
    intros col d. unfold impute_step.
    rewrite (Hne "mean"%string) by (simpl; tauto).
    rewrite (Hne "median"%string) by (simpl; tauto).
    rewrite (Hne "mode"%string) by (simpl; tauto).
    rewrite (Hne "knn"%string) by (simpl; tauto).
    reflexivity.
  - unfold encode_categorical.
    rewrite (Hme "one_hot"%string) by (simpl; tauto).
    rewrite (Hme "label"%string) by (simpl; tauto).
    reflexivity.
Qed.

(** C10.  An empty column list is handled as no column list: both run the
    strategy over all the columns of the dataset. *)
Theorem C10_empty_list_is_all_columns :
  forall (df : DataFrame) (strategy : string) (k : nat),
    handle_missing_values df strategy (Some []) k
    = handle_missing_values df strategy None k
    /\ handle_missing_values df strategy (Some []) k
       = (if String.eqb strategy "drop"
          then pure_call df (dropna_rows df (Frame.columns df))
          else returning_df
                 (for_each (impute_step strategy k) (Frame.columns df) df)).
Proof.
  intros df strategy k. split; reflexivity.
Qed.

Lemma count_true_nil_col :
  forall c, len c = 0 -> count_true (isnull c) = 0.
Proof.
  intros c H. destruct c as [k xs|xs|xs]; simpl in H;
    apply length_zero_iff_nil in H; subst; reflexivity.
Qed.

(** C5, as the code has it.  On a dataset with no row the quality report
    succeeds, has one record per column, and every null percentage in it
    is NaN: the count 0 is divided by the length 0. *)
Theorem C5_report_without_rows :
  forall (df : DataFrame),
    wf df ->
    nrows df = 0 ->
    exists rows,
      data_quality_report df = Ok rows
      /\ map Column rows = Frame.columns df
      /\ Forall (fun r => NullPercentage r = NaN) rows.
Proof.
  intros df Hwf Hn. unfold data_quality_report, duplicated, empty.
  rewrite Hn. simpl. eexists. split; [reflexivity|]. split.
  - rewrite map_map. reflexivity.
  - rewrite Forall_map. unfold wf in Hwf.
    eapply Forall_impl; [|exact Hwf].
    intros [n c] Hlen. simpl in *.
    rewrite count_true_nil_col by congruence. reflexivity.
Qed.

End Failures.

(** ** Duplicate removal *)

Section Duplicates.

(** Rows kept out of the first [n] by a mask. *)
Definition kept (mask : list bool) (n : nat) : nat :=
  length (mask_filter mask (seq 0 n)).

Lemma kept_cons :
  forall b mask n,
    kept (b :: mask) (S n) = if b then S (kept mask n) else kept mask n.
Proof.
  intros b mask n. unfold kept. simpl.
  destruct b; simpl;
    rewrite (mask_filter_length_eq mask (seq 1 n) (seq 0 n))
      by (rewrite !length_seq; reflexivity);
    reflexivity.
Qed.

Lemma filter_col_true :
  forall mask c n,
    len c = S n ->
    head_cell (filter_col (true :: mask) c) = head_cell c
    /\ tail_col (filter_col (true :: mask) c) = filter_col mask (tail_col c).
Proof.
  intros mask c n H.
  destruct c as [k [|x xs]|[|x xs]|[|x xs]]; simpl in H; try discriminate;
    split; reflexivity.
Qed.

Lemma filter_col_false :
  forall mask c n,
    len c = S n ->
    filter_col (false :: mask) c = filter_col mask (tail_col c).
Proof.
  intros mask c n H.
  destruct c as [k [|x xs]|[|x xs]|[|x xs]]; simpl in H; try discriminate;
    reflexivity.
Qed.

Lemma tail_col_len :
  forall c n, len c = S n -> len (tail_col c) = n.
Proof.
  intros c n H.
  destruct c as [k [|x xs]|[|x xs]|[|x xs]]; simpl in *; congruence.
Qed.

(** Filtering the columns and then reading the rows is reading the rows
    and then filtering them. *)
Lemma rows_of_filter :
  forall mask n cs,
    length mask = n ->
    Forall (fun c => len c = n) cs ->
    rows_of (map (filter_col mask) cs) (kept mask n)
    = mask_filter mask (rows_of cs n).
Proof.
  induction mask as [|b mask IH]; intros n cs Hlen Hcs.
  - simpl in Hlen. subst n. reflexivity.
  - destruct n as [|n]; simpl in Hlen; [discriminate|].
    injection Hlen as Hlen.
    assert (Htail : Forall (fun c => len c = n) (map tail_col cs)).
    { rewrite Forall_map. eapply Forall_impl; [|exact Hcs].
      intros c Hc. apply tail_col_len. exact Hc. }
    rewrite kept_cons. destruct b.
    + simpl. rewrite <- (IH n (map tail_col cs) Hlen Htail).
      f_equal.
      * rewrite map_map. apply map_ext_Forall.
        eapply Forall_impl; [|exact Hcs].
        intros c Hc. apply (filter_col_true mask c Hc).
      * f_equal. rewrite !map_map. apply map_ext_Forall.
        eapply Forall_impl; [|exact Hcs].
        intros c Hc. apply (filter_col_true mask c Hc).
    + simpl. rewrite <- (IH n (map tail_col cs) Hlen Htail).
      f_equal. rewrite map_map. apply map_ext_Forall.
      eapply Forall_impl; [|exact Hcs].
      intros c Hc. apply (filter_col_false mask c Hc).
Qed.

Lemma rows_of_length :
  forall n cs, length (rows_of cs n) = n.
Proof.
  induction n as [|n IH]; intros cs; simpl; [reflexivity|].
  rewrite IH. reflexivity.
Qed.

Lemma duplicated_from_length :
  forall rs seen, length (duplicated_from seen rs) = length rs.
Proof.
  induction rs as [|r rs IH]; intros seen; simpl; [reflexivity|].
  destruct (existsb (row_eqb r) seen); simpl; rewrite IH; reflexivity.
Qed.

(** Among the rows kept, none has an equal row before it. *)
Lemma duplicated_from_kept :
  forall rs seen seen',
    (forall r, existsb (row_eqb r) seen' = true ->
               existsb (row_eqb r) seen = true) ->
    duplicated_from seen'
      (mask_filter (map negb (duplicated_from seen rs)) rs)
    = map (fun _ => false)
          (mask_filter (map negb (duplicated_from seen rs)) rs).
Proof.
  induction rs as [|r rs IH]; intros seen seen' Hsub; simpl; [reflexivity|].
  destruct (existsb (row_eqb r) seen) eqn:Hr; simpl.
  - apply IH. exact Hsub.
  - destruct (existsb (row_eqb r) seen') eqn:Hr'.
    + apply Hsub in Hr'. congruence.
    + f_equal. apply IH. intros q Hq. simpl in *.
      apply orb_true_iff in Hq. apply orb_true_iff.
      destruct Hq as [Hq|Hq]; [left; exact Hq | right; apply Hsub; exact Hq].
Qed.

Lemma mask_filter_all_true :
  forall (A B : Type) (l : list B) (xs : list A),
    length l = length xs ->
    mask_filter (map negb (map (fun _ => false) l)) xs = xs.
Proof.
  induction l as [|y l IH]; intros xs H; destruct xs as [|x xs];
    simpl in *; try discriminate; try reflexivity.
  f_equal. apply IH. congruence.
Qed.

Lemma filter_rows_all_true :
  forall (B : Type) (l : list B) df,
    wf df -> length l = nrows df ->
    filter_rows (map negb (map (fun _ => false) l)) df = df.
Proof.
  intros B l [n cs] Hwf Hlen. unfold filter_rows, wf in *. simpl in *.
  f_equal.
  - rewrite mask_filter_all_true by (rewrite length_seq; exact Hlen).
    apply length_seq.
  - rewrite <- (map_id cs) at 2. apply map_ext_Forall.
    eapply Forall_impl; [|exact Hwf].
    intros [name c] Hc. simpl in *. f_equal.
    destruct c as [k xs|xs|xs]; simpl in *; f_equal;
      apply mask_filter_all_true; congruence.
Qed.

Lemma select_filter_rows :
  forall names mask df,
    select names (filter_rows mask df)
    = map (filter_col mask) (select names df).
Proof.
  intros names mask df. unfold select, filter_rows. simpl.
  induction (cols df) as [|[n c] l IH]; simpl; [reflexivity|].
  destruct (mem n names); simpl; rewrite IH; reflexivity.
Qed.

Lemma select_len :
  forall names df,
    wf df -> Forall (fun c => len c = nrows df) (select names df).
Proof.
  intros names df Hwf. unfold select, wf in *.
  rewrite Forall_map. apply Forall_forall. intros nc Hin.
  apply filter_In in Hin. rewrite Forall_forall in Hwf.
  apply Hwf. tauto.
Qed.

Lemma columns_filter_rows :
  forall mask df, Frame.columns (filter_rows mask df) = Frame.columns df.
Proof.
  intros mask df. unfold Frame.columns, filter_rows. simpl.
  rewrite map_map. reflexivity.
Qed.

(** Removing the duplicates of a frame whose duplicates were removed over
    the same key columns changes nothing. *)
Lemma drop_duplicates_again :
  forall df cs,
    wf df ->
    Forall (fun c => len c = nrows df) cs ->
    let d := filter_rows
               (map negb (duplicated_from [] (rows_of cs (nrows df)))) df in
    filter_rows
      (map negb
         (duplicated_from []
            (rows_of (map (filter_col
                             (map negb
                                (duplicated_from [] (rows_of cs (nrows df)))))
                          cs)
                     (nrows d))))
      d = d.
Proof.
  intros df cs Hwf Hcs d.
  set (rs := rows_of cs (nrows df)).
  set (mask := map negb (duplicated_from [] rs)).
  assert (Hmask : length mask = nrows df).
  { unfold mask, rs. rewrite length_map, duplicated_from_length.
    apply rows_of_length. }
  change (nrows d) with (kept mask (nrows df)).
  rewrite (@rows_of_filter mask _ cs Hmask Hcs).
  fold rs. unfold mask.
  rewrite duplicated_from_kept by auto.
  apply filter_rows_all_true.
  - apply filter_rows_wf. exact Hwf.
  - fold mask. unfold d. simpl. unfold rs.
    apply mask_filter_length_eq.
    rewrite rows_of_length, length_seq. reflexivity.
Qed.

(** C8.  On a well-formed dataset, removing duplicates over all columns
    succeeds and removing them again returns the same dataset; the same
    holds over any subset of columns for which the first call succeeds. *)
Theorem C8_remove_duplicates_idempotent :
  forall (df : DataFrame),
    wf df ->
    (exists d, remove_duplicates df None = Ok d
               /\ remove_duplicates d None = Ok d)
    /\ (forall subset d,
          remove_duplicates df subset = Ok d ->
          remove_duplicates d subset = Ok d).
Proof.
  intros df Hwf.
  assert (Hgen : forall subset d,
             remove_duplicates df subset = Ok d ->
             remove_duplicates d subset = Ok d).
  { intros subset d H. unfold remove_duplicates, drop_duplicates in *.
    destruct (empty df) eqn:Hempty.
    - injection H as <-. rewrite Hempty. reflexivity.
    - unfold duplicated in H. rewrite Hempty in H.
      destruct (empty d) eqn:Hd; [reflexivity|].
      unfold duplicated. rewrite Hd.
      destruct subset as [names|].
      + destruct (forallb (fun n => mem n (Frame.columns df)) names) eqn:Hk;
          [|discriminate].
        destruct names as [|n names]; [discriminate|].
        simpl in H. injection H as <-.
        rewrite columns_filter_rows, Hk. simpl.
        rewrite select_filter_rows. f_equal.
        apply (drop_duplicates_again Hwf (select_len (n :: names) Hwf)).
      + simpl in H. injection H as <-. simpl. f_equal.
        replace (map snd
                   (map (fun nc => (fst nc, filter_col
                      (map negb (duplicated_from []
                         (rows_of (map snd (cols df)) (nrows df)))) (snd nc)))
                      (cols df)))
          with (map (filter_col
                       (map negb (duplicated_from []
                          (rows_of (map snd (cols df)) (nrows df)))))
                    (map snd (cols df)))
          by (rewrite !map_map; reflexivity).
        apply (drop_duplicates_again (cs := map snd (cols df)) Hwf).
        unfold wf in Hwf. rewrite Forall_map. exact Hwf. }
  split; [|exact Hgen].
  assert (Hok : exists d, remove_duplicates df None = Ok d).
  { unfold remove_duplicates, drop_duplicates, duplicated.
    destruct (empty df); simpl; eexists; reflexivity. }
  destruct Hok as [d Hd]. exists d. split; [exact Hd | apply Hgen; exact Hd].
Qed.

End Duplicates.

(** ** Outlier detection *)

Section Outliers.

Context {E : Externals}.

Lemma mask_or_map :
  forall (A : Type) (f g : A -> bool) (xs : list A),
    mask_or (map f xs) (map g xs) = map (fun x => f x || g x) xs.
Proof.
  intros A f g xs. induction xs as [|x xs IH]; simpl; [reflexivity|].
  rewrite IH. reflexivity.
Qed.

Lemma nth_map_true :
  forall (A : Type) (h : A -> bool) (xs : list A) (i : nat),
    nth i (map h xs) false = true
    <-> exists x, nth_error xs i = Some x /\ h x = true.
Proof.
  intros A h xs. induction xs as [|x xs IH]; intros i.
  - destruct i; simpl; split; try discriminate;
      intros (y & Hy & _); discriminate.
  - destruct i as [|i]; simpl.
    + split.
      * intros H. exists x. auto.
      * intros (y & Hy & Hh). injection Hy as ->. exact Hh.
    + apply IH.
Qed.

(** [x < x] is false of every float. *)
Lemma ltb_irrefl :
  forall x : F64.f64, F64.ltb x x = false.
Proof.
  intros [s|s|  |s m e]; unfold F64.ltb, SpecFloat.SFltb; simpl;
    try reflexivity.
  - destruct s; reflexivity.
  - destruct s; rewrite Z.compare_refl, Pos.compare_cont_refl; reflexivity.
Qed.

(** The quartiles of a numeric column and the fences drawn from them,
    in float64; all NaN when the column holds no value. *)
Definition first_quartile (xs : list (option Q)) : F64.f64 :=
  quantile (1 # 4) (dropna xs).

Definition third_quartile (xs : list (option Q)) : F64.f64 :=
  quantile (3 # 4) (dropna xs).

Definition lower_fence (xs : list (option Q)) : F64.f64 :=
  F64.sub (first_quartile xs)
          (F64.mul (F64.of_Q (3 # 2))
                   (F64.sub (third_quartile xs) (first_quartile xs))).

Definition upper_fence (xs : list (option Q)) : F64.f64 :=
  F64.add (third_quartile xs)
          (F64.mul (F64.of_Q (3 # 2))
                   (F64.sub (third_quartile xs) (first_quartile xs))).

Lemma detect_outliers_numeric :
  forall df column k xs,
    getitem df column = Ok (Numeric k xs) ->
    detect_outliers_iqr df column
    = Ok (map (fun x => lt_cell x (lower_fence xs)
                        || gt_cell x (upper_fence xs)) xs).
Proof.
  intros df column k xs H. unfold detect_outliers_iqr. rewrite H. simpl.
  rewrite mask_or_map. reflexivity.
Qed.


End Outliers.

(** ** Sorted lists of distinct values *)

(** A three-way comparison that is a total order up to its [Eq]. *)
Record total_cmp (A : Type) (cmp : A -> A -> comparison) : Prop := {
  cmp_refl : forall x, cmp x x = Eq;
  cmp_antisym : forall x y, cmp y x = CompOpp (cmp x y);
  cmp_trans : forall x y z, cmp x y = Lt -> cmp y z = Lt -> cmp x z = Lt;
  cmp_eq_l : forall x y z, cmp x y = Eq -> cmp x z = cmp y z
}.

Section OrderedFacts.

Variable A : Type.
Variable cmp : A -> A -> comparison.
Hypothesis Hcmp : total_cmp cmp.

Let lt (x y : A) : Prop := cmp x y = Lt.
Let le (x y : A) : Prop := cmp x y <> Gt.
Let eqv (x y : A) : bool := eqb_of cmp x y.

Lemma cmp_eq_r :
  forall x y z, cmp x y = Eq -> cmp z x = cmp z y.
Proof.
  intros x y z H.
  rewrite (cmp_antisym Hcmp x z), (cmp_antisym Hcmp y z).
  rewrite (cmp_eq_l Hcmp x y z H). reflexivity.
Qed.

Lemma cmp_eq_sym :
  forall x y, cmp x y = Eq -> cmp y x = Eq.
Proof.
  intros x y H. rewrite (cmp_antisym Hcmp x y), H. reflexivity.
Qed.

Lemma cmp_gt_lt :
  forall x y, cmp x y = Gt -> cmp y x = Lt.
Proof.
  intros x y H. rewrite (cmp_antisym Hcmp x y), H. reflexivity.
Qed.

Lemma eqv_congr_l :
  forall x y z, cmp x y = Eq -> eqv x z = eqv y z.
Proof.
  intros x y z H. unfold eqv, eqb_of.
  rewrite (cmp_eq_l Hcmp x y z H). reflexivity.
Qed.

Lemma eqv_congr_r :
  forall x y z, cmp x y = Eq -> eqv z x = eqv z y.
Proof.
  intros x y z H. unfold eqv, eqb_of.
  rewrite (cmp_eq_r z H). reflexivity.
Qed.

(** *** [sort] *)

Lemma insert_perm :
  forall x l, Permutation (insert cmp x l) (x :: l).
Proof.
  intros x l. induction l as [|y l IH]; simpl; [apply Permutation_refl|].
  destruct (cmp x y); try apply Permutation_refl.
  eapply Permutation_trans; [apply perm_skip; exact IH | apply perm_swap].
Qed.

Lemma sort_perm :
  forall l, Permutation (sort cmp l) l.
Proof.
  induction l as [|x l IH]; simpl; [constructor|].
  eapply Permutation_trans; [apply insert_perm | apply perm_skip; exact IH].
Qed.

Lemma sort_length :
  forall l, length (sort cmp l) = length l.
Proof. intros l. apply Permutation_length, sort_perm. Qed.

Lemma insert_hd :
  forall a x l, le a x -> HdRel le a l -> HdRel le a (insert cmp x l).
Proof.
  intros a x l Hax Hl. destruct l as [|y l]; simpl.
  - constructor. exact Hax.
  - inversion Hl; subst. destruct (cmp x y); constructor; assumption.
Qed.

Lemma insert_sorted :
  forall x l, Sorted le l -> Sorted le (insert cmp x l).
Proof.
  intros x l Hl. induction Hl as [|y l Hs IH Hhd]; simpl.
  - repeat constructor.
  - destruct (cmp x y) eqn:Hxy.
    + repeat constructor; auto. unfold le. congruence.
    + repeat constructor; auto. unfold le. congruence.
    + constructor; [exact IH|].
      apply insert_hd; [|exact Hhd].
      unfold le. rewrite (cmp_gt_lt Hxy). discriminate.
Qed.

Lemma sort_sorted :
  forall l, Sorted le (sort cmp l).
Proof.
  induction l as [|x l IH]; simpl; [constructor|].
  apply insert_sorted. exact IH.
Qed.

(** *** [unique] *)

Lemma insert_uniq_hd :
  forall a x l, lt a x -> HdRel lt a l -> HdRel lt a (insert_uniq cmp x l).
Proof.
  intros a x l Hax Hl. destruct l as [|y l]; simpl.
  - constructor. exact Hax.
  - inversion Hl; subst. destruct (cmp x y); constructor; assumption.
Qed.

Lemma insert_uniq_sorted :
  forall x l, Sorted lt l -> Sorted lt (insert_uniq cmp x l).
Proof.
  intros x l Hl. induction Hl as [|y l Hs IH Hhd]; simpl.
  - repeat constructor.
  - destruct (cmp x y) eqn:Hxy.
    + constructor; assumption.
    + repeat constructor; auto.
    + constructor; [exact IH|].
      apply insert_uniq_hd; [|exact Hhd].
      apply cmp_gt_lt. exact Hxy.
Qed.

Lemma unique_sorted :
  forall l, StronglySorted lt (unique cmp l).
Proof.
  intros l. apply Sorted_StronglySorted.
  - intros x y z. apply (cmp_trans Hcmp).
  - induction l as [|x l IH]; simpl; [constructor|].
    apply insert_uniq_sorted. exact IH.
Qed.

Lemma insert_uniq_mem :
  forall x y l,
    existsb (eqv x) (insert_uniq cmp y l) = eqv x y || existsb (eqv x) l.
Proof.
  intros x y l. induction l as [|z l IH]; simpl; [reflexivity|].
  destruct (cmp y z) eqn:Hyz; simpl.
  - rewrite (eqv_congr_r x Hyz).
    destruct (eqv x z); reflexivity.
  - reflexivity.
  - rewrite IH. destruct (eqv x z), (eqv x y); reflexivity.
Qed.

Lemma unique_mem :
  forall x l, existsb (eqv x) (unique cmp l) = existsb (eqv x) l.
Proof.
  intros x l. induction l as [|y l IH]; simpl; [reflexivity|].
  rewrite insert_uniq_mem, IH. reflexivity.
Qed.

Lemma insert_uniq_In :
  forall x y l, In x (insert_uniq cmp y l) -> x = y \/ In x l.
Proof.
  intros x y l. induction l as [|z l IH]; simpl.
  - intros [H|[]]; auto.
  - destruct (cmp y z); simpl; intros H.
    + auto.
    + destruct H as [H|H]; auto.
    + destruct H as [H|H]; auto. destruct (IH H); auto.
Qed.

Lemma unique_In :
  forall x l, In x (unique cmp l) -> In x l.
Proof.
  intros x l. induction l as [|y l IH]; simpl; [auto|].
  intros H. apply insert_uniq_In in H. destruct H; auto.
Qed.

(** *** [index_of] in a strictly ascending list *)

Lemma index_of_lt_length :
  forall x u, existsb (eqv x) u = true -> index_of cmp x u < length u.
Proof.
  intros x u. induction u as [|z u IH]; simpl; [discriminate|].
  fold (eqv x z). destruct (eqv x z); simpl; intros H; [lia|].
  apply IH in H. lia.
Qed.

Lemma below_all :
  forall z u y,
    Forall (lt z) u -> existsb (eqv y) u = true -> cmp z y = Lt.
Proof.
  intros z u y Hz Hy. apply existsb_exists in Hy.
  destruct Hy as (w & Hw & Hyw). rewrite Forall_forall in Hz.
  specialize (Hz w Hw). unfold eqv, eqb_of in Hyw.
  destruct (cmp y w) eqn:Hc; try discriminate.
  rewrite (cmp_eq_r z Hc). exact Hz.
Qed.

(** The positions compare as the values do. *)
Lemma index_of_compare :
  forall u x y,
    StronglySorted lt u ->
    existsb (eqv x) u = true ->
    existsb (eqv y) u = true ->
    Nat.compare (index_of cmp x u) (index_of cmp y u) = cmp x y.
Proof.
  intros u x y Hu. induction Hu as [|z u Hs IH Hz]; intros Hx Hy.
  - discriminate.
  - simpl in *. fold (eqv x z) (eqv y z) in *.
    destruct (eqv x z) eqn:Hxz, (eqv y z) eqn:Hyz; simpl in *.
    + unfold eqv, eqb_of in Hxz, Hyz.
      destruct (cmp x z) eqn:H1; try discriminate.
      destruct (cmp y z) eqn:H2; try discriminate.
      rewrite (cmp_eq_l Hcmp _ _ y H1). symmetry.
      apply cmp_eq_sym. exact H2.
    + unfold eqv, eqb_of in Hxz.
      destruct (cmp x z) eqn:H1; try discriminate.
      rewrite (cmp_eq_l Hcmp _ _ y H1). symmetry.
      eapply below_all; eauto.
    + unfold eqv, eqb_of in Hyz.
      destruct (cmp y z) eqn:H2; try discriminate.
      rewrite (cmp_eq_r x H2).
      rewrite (cmp_antisym Hcmp z x).
      rewrite (@below_all z u x Hz Hx). reflexivity.
    + apply IH; assumption.
Qed.

Lemma index_of_congr :
  forall x y u, cmp x y = Eq -> index_of cmp x u = index_of cmp y u.
Proof.
  intros x y u H. induction u as [|z u IH]; simpl; [reflexivity|].
  fold (eqv x z) (eqv y z). rewrite (eqv_congr_l z H), IH. reflexivity.
Qed.

Lemma index_of_nth :
  forall u n d,
    StronglySorted lt u -> n < length u ->
    index_of cmp (nth n u d) u = n.
Proof.
  intros u n d Hu. revert n.
  induction Hu as [|z u Hs IH Hz]; intros n Hn; simpl in Hn; [lia|].
  destruct n as [|n]; simpl.
  - unfold eqb_of. rewrite (cmp_refl Hcmp). reflexivity.
  - assert (Hin : In (nth n u d) u) by (apply nth_In; lia).
    rewrite Forall_forall in Hz. specialize (Hz _ Hin).
    unfold eqb_of. rewrite (cmp_antisym Hcmp z (nth n u d)), Hz. simpl.
    rewrite IH by lia. reflexivity.
Qed.

(** [encode_with]: the codes compare as the values do, and they are the
    numbers below the count of distinct values, each of them used. *)
Lemma encode_with_compare :
  forall xs i j x y m n,
    nth_error xs i = Some x -> nth_error xs j = Some y ->
    nth_error (encode_with cmp xs) i = Some m ->
    nth_error (encode_with cmp xs) j = Some n ->
    Nat.compare m n = cmp x y.
Proof.
  intros xs i j x y m n Hx Hy Hm Hn. unfold encode_with in *.
  rewrite nth_error_map, Hx in Hm. rewrite nth_error_map, Hy in Hn.
  simpl in *. injection Hm as <-. injection Hn as <-.
  assert (Hmem : forall k z, nth_error xs k = Some z ->
                             existsb (eqv z) (unique cmp xs) = true).
  { intros k z Hz. rewrite unique_mem. apply existsb_exists.
    exists z. split; [eapply nth_error_In; eauto|].
    unfold eqv, eqb_of. rewrite (cmp_refl Hcmp). reflexivity. }
  apply index_of_compare; [apply unique_sorted | eauto | eauto].
Qed.

Lemma encode_with_range :
  forall xs n,
    In n (encode_with cmp xs) <-> n < length (unique cmp xs).
Proof.
  intros xs n. unfold encode_with. rewrite in_map_iff. split.
  - intros (x & <- & Hx). apply index_of_lt_length.
    rewrite unique_mem. apply existsb_exists. exists x. split; [exact Hx|].
    unfold eqv, eqb_of. rewrite (cmp_refl Hcmp). reflexivity.
  - intros Hn. destruct (unique cmp xs) as [|d u] eqn:Hu; [simpl in Hn; lia|].
    rewrite <- Hu in *. exists (nth n (unique cmp xs) d). split.
    + apply index_of_nth; [apply unique_sorted | exact Hn].
    + apply unique_In. apply nth_In. exact Hn.
Qed.

(** *** [mode] *)

Lemma count_congr :
  forall x y l, cmp x y = Eq -> count cmp x l = count cmp y l.
Proof.
  intros x y l H. unfold count. f_equal. apply filter_ext.
  intros z. apply (eqv_congr_l z H).
Qed.

Lemma mode_fold :
  forall l u best m,
    fold_left
      (fun best v =>
         match best with
         | None => Some v
         | Some b => if count cmp b l <? count cmp v l then Some v else Some b
         end) u best = Some m ->
    (forall b, best = Some b -> count cmp b l <= count cmp m l)
    /\ (forall v, In v u -> count cmp v l <= count cmp m l)
    /\ (In m u \/ best = Some m).
Proof.
  intros l u. induction u as [|v u IH]; intros best m H; simpl in H.
  - subst best. split; [|split].
    + intros b Hb. injection Hb as ->. lia.
    + intros v [].
    + right. reflexivity.
  - destruct (IH _ _ H) as (Hbest & Hrest & Hwhere).
    destruct best as [b|].
    + destruct (count cmp b l <? count cmp v l) eqn:Hlt.
      * apply Nat.ltb_lt in Hlt. specialize (Hbest v eq_refl).
        split; [|split].
        -- intros b' Hb'. injection Hb' as <-. lia.
        -- intros w [<-|Hw]; [exact Hbest | apply Hrest; exact Hw].
        -- left. destruct Hwhere as [Hw|Hw];
             [right; exact Hw | left; congruence].
      * apply Nat.ltb_ge in Hlt. specialize (Hbest b eq_refl).
        split; [|split].
        -- intros b' Hb'. injection Hb' as <-. exact Hbest.
        -- intros w [<-|Hw]; [lia | apply Hrest; exact Hw].
        -- destruct Hwhere as [Hw|Hw]; [left; right; exact Hw | right; exact Hw].
    + specialize (Hbest v eq_refl). split; [|split].
      * intros b Hb. discriminate.
      * intros w [<-|Hw]; [exact Hbest | apply Hrest; exact Hw].
      * left. destruct Hwhere as [Hw|Hw];
          [right; exact Hw | left; congruence].
Qed.

(** The mode is a value of the list and no value occurs more often. *)
Lemma mode_most_frequent :
  forall l m,
    mode cmp l = Some m ->
    In m l /\ forall v, In v l -> count cmp v l <= count cmp m l.
Proof.
  intros l m H. unfold mode in H.
  destruct (mode_fold _ _ _ H) as (_ & Hall & Hwhere). split.
  - destruct Hwhere as [Hw|Hw]; [apply unique_In; exact Hw | discriminate].
  - intros v Hv.
    assert (Hm : existsb (eqv v) (unique cmp l) = true).
    { rewrite unique_mem. apply existsb_exists. exists v.
      split; [exact Hv|]. unfold eqv, eqb_of.
      rewrite (cmp_refl Hcmp). reflexivity. }
    apply existsb_exists in Hm. destruct Hm as (w & Hw & Hvw).
    unfold eqv, eqb_of in Hvw.
    destruct (cmp v w) eqn:Hc; try discriminate.
    rewrite (count_congr l Hc). apply Hall. exact Hw.
Qed.

(** Scanning the distinct values in ascending order keeps the earliest
    of the most frequent ones. *)
Lemma mode_fold_least :
  forall l u b m,
    Forall (lt b) u -> StronglySorted lt u ->
    fold_left
      (fun best v =>
         match best with
         | None => Some v
         | Some b => if count cmp b l <? count cmp v l then Some v else Some b
         end) u (Some b) = Some m ->
    (m = b \/ (In m u /\ count cmp b l < count cmp m l))
    /\ forall w, w = b \/ In w u ->
                 count cmp w l = count cmp m l -> cmp m w <> Gt.
Proof.
  intros l u. induction u as [|v u IH]; intros b m Hb Hs H; simpl in H.
  - injection H as <-. split; [left; reflexivity|].
    intros w [->|[]] _. rewrite (cmp_refl Hcmp). discriminate.
  - inversion Hb as [|? ? Hbv Hbu]; subst.
    inversion Hs as [|? ? Hsu Hvu]; subst.
    destruct (count cmp b l <? count cmp v l) eqn:Hlt.
    + apply Nat.ltb_lt in Hlt.
      destruct (IH v m Hvu Hsu H) as (Hm & Hleast).
      assert (Hcount : count cmp b l < count cmp m l).
      { destruct Hm as [->|[_ Hm]]; lia. }
      split.
      * right. split; [|exact Hcount].
        destruct Hm as [->|[Hm _]]; [left; reflexivity | right; exact Hm].
      * intros w [->|Hw] Hc; [lia|]. apply Hleast; [|exact Hc].
        destruct Hw as [<-|Hw]; [left; reflexivity | right; exact Hw].
    + apply Nat.ltb_ge in Hlt.
      destruct (IH b m Hbu Hsu H) as (Hm & Hleast).
      split.
      * destruct Hm as [->|[Hm Hc]]; [left; reflexivity|].
        right. split; [right; exact Hm | exact Hc].
      * intros w [->|[<-|Hw]] Hc.
        -- apply Hleast; [left; reflexivity | exact Hc].
        -- destruct Hm as [->|[_ Hm]]; [|lia].
           unfold lt in Hbv. rewrite Hbv. discriminate.
        -- apply Hleast; [right; exact Hw | exact Hc].
Qed.

(** Among the values that occur most often the mode is the least. *)
Lemma mode_least :
  forall l m,
    mode cmp l = Some m ->
    forall v, In v l -> count cmp v l = count cmp m l -> cmp m v <> Gt.
Proof.
  intros l m H v Hv Hc. unfold mode in H.
  pose proof (unique_sorted l) as Hs.
  assert (Hm : existsb (eqv v) (unique cmp l) = true).
  { rewrite unique_mem. apply existsb_exists. exists v.
    split; [exact Hv|]. unfold eqv, eqb_of.
    rewrite (cmp_refl Hcmp). reflexivity. }
  apply existsb_exists in Hm. destruct Hm as (w & Hw & Hvw).
  unfold eqv, eqb_of in Hvw.
  destruct (cmp v w) eqn:Hvw'; try discriminate.
  rewrite (cmp_eq_r m Hvw').
  destruct (unique cmp l) as [|b u]; [destruct Hw|]. simpl in H.
  inversion Hs as [|? ? Hsu Hbu]; subst.
  destruct (mode_fold_least l Hbu Hsu H) as (_ & Hleast).
  apply Hleast.
  - destruct Hw as [<-|Hw]; [left; reflexivity | right; exact Hw].
  - rewrite <- (count_congr l Hvw'). exact Hc.
Qed.

End OrderedFacts.

(** ** The orders of the cell types *)

Lemma ascii_compare_refl : forall a, Ascii.compare a a = Eq.
Proof. intros a. apply N.compare_refl. Qed.

Lemma ascii_compare_trans :
  forall a b c,
    Ascii.compare a b = Lt -> Ascii.compare b c = Lt -> Ascii.compare a c = Lt.
Proof.
  unfold Ascii.compare. intros a b c H1 H2.
  rewrite N.compare_lt_iff in *. eapply N.lt_trans; eauto.
Qed.

Lemma string_compare_refl : forall s, String.compare s s = Eq.
Proof.
  induction s as [|a s IH]; simpl; [reflexivity|].
  rewrite ascii_compare_refl. exact IH.
Qed.

Lemma string_compare_trans :
  forall s t u,
    String.compare s t = Lt -> String.compare t u = Lt ->
    String.compare s u = Lt.
Proof.
  induction s as [|a s IH]; intros [|b t] [|c u] H1 H2;
    simpl in *; try discriminate; try reflexivity.
  destruct (Ascii.compare a b) eqn:Hab; try discriminate;
    destruct (Ascii.compare b c) eqn:Hbc; try discriminate.
  - apply Ascii.compare_eq_iff in Hab, Hbc. subst.
    rewrite ascii_compare_refl. eapply IH; eauto.
  - apply Ascii.compare_eq_iff in Hab. subst. rewrite Hbc. reflexivity.
  - apply Ascii.compare_eq_iff in Hbc. subst. rewrite Hab. reflexivity.
  - rewrite (ascii_compare_trans _ _ _ Hab Hbc). reflexivity.
Qed.

Lemma string_total_cmp : total_cmp String.compare.
Proof.
  constructor.
  - apply string_compare_refl.
  - intros x y. apply String.compare_antisym.
  - apply string_compare_trans.
  - intros x y z H. apply String.compare_eq_iff in H. subst. reflexivity.
Qed.

Lemma Q_total_cmp : total_cmp Qcompare.
Proof.
  constructor.
  - intros x. apply Qeq_alt. reflexivity.
  - intros x y. symmetry. apply Qcompare_antisym.
  - intros x y z H1 H2. rewrite <- Qlt_alt in *. eapply Qlt_trans; eauto.
  - intros x y z H. apply Qeq_alt in H. rewrite H. reflexivity.
Qed.

Lemma bool_total_cmp : total_cmp Bool.compare.
Proof.
  constructor.
  - intros []; reflexivity.
  - intros [] []; reflexivity.
  - intros [] [] []; simpl; congruence.
  - intros [] [] []; simpl; congruence.
Qed.

Lemma option_total_cmp :
  forall (A : Type) (cmp : A -> A -> comparison),
    total_cmp cmp -> total_cmp (cmp_option cmp).
Proof.
  intros A cmp H. constructor.
  - intros [x|]; simpl; [apply (cmp_refl H) | reflexivity].
  - intros [x|] [y|]; simpl; try reflexivity. apply (cmp_antisym H).
  - intros [x|] [y|] [z|]; simpl; try congruence. apply (cmp_trans H).
  - intros [x|] [y|] [z|]; simpl; try congruence. apply (cmp_eq_l H).
Qed.

(** On text, the distinct values of [unique] are those of the list. *)
Lemma unique_string_NoDup :
  forall l, NoDup (unique String.compare l).
Proof.
  intros l. pose proof (unique_sorted string_total_cmp l) as H.
  induction H as [|x u Hs IH Hx]; constructor; [|exact IH].
  intros Hin. rewrite Forall_forall in Hx. specialize (Hx _ Hin).
  rewrite string_compare_refl in Hx. discriminate.
Qed.

Lemma unique_string_In :
  forall x l, In x (unique String.compare l) <-> In x l.
Proof.
  intros x l. split; [apply unique_In|].
  intros H.
  assert (Hm : existsb (eqb_of String.compare x) (unique String.compare l)
               = true).
  { rewrite (unique_mem string_total_cmp). apply existsb_exists.
    exists x. split; [exact H|]. unfold eqb_of.
    rewrite string_compare_refl. reflexivity. }
  apply existsb_exists in Hm. destruct Hm as (y & Hy & Hxy).
  unfold eqb_of in Hxy. destruct (String.compare x y) eqn:Hc; try discriminate.
  apply String.compare_eq_iff in Hc. subst. exact Hy.
Qed.

Lemma unique_string_count :
  forall l,
    length (unique String.compare l) = length (nodup string_dec l).
Proof.
  intros l. apply Permutation_length. apply NoDup_Permutation.
  - apply unique_string_NoDup.
  - apply NoDup_nodup.
  - intros x. rewrite unique_string_In, nodup_In. reflexivity.
Qed.

(** ** Loops that rewrite one column per name *)

Lemma lookup_replace_same :
  forall name c c' l,
    lookup name l = Some c -> lookup name (replace name c' l) = Some c'.
Proof.
  intros name c c' l. induction l as [|[n c0] l IH]; simpl; [discriminate|].
  destruct (String.eqb n name) eqn:Hn; simpl; rewrite Hn; auto.
Qed.

Lemma lookup_replace_other :
  forall name col c' l,
    name <> col -> lookup name (replace col c' l) = lookup name l.
Proof.
  intros name col c' l Hne. induction l as [|[n c0] l IH]; simpl.
  - destruct (String.eqb_spec col name); [congruence | reflexivity].
  - destruct (String.eqb_spec n col) as [->|Hn]; simpl.
    + destruct (String.eqb_spec col name); [congruence | reflexivity].
    + destruct (String.eqb n name); [reflexivity | exact IH].
Qed.

Lemma mem_In :
  forall name names, mem name names = true <-> In name names.
Proof.
  intros name names. unfold mem. rewrite existsb_exists. split.
  - intros (x & Hx & He). apply String.eqb_eq in He. subst. exact Hx.
  - intros H. exists name. split; [exact H | apply String.eqb_refl].
Qed.

Lemma has_repeat_NoDup :
  forall names, has_repeat names = false <-> NoDup names.
Proof.
  induction names as [|n names IH]; simpl.
  - split; [constructor | reflexivity].
  - rewrite orb_false_iff, IH. split.
    + intros [Hm Hnd]. constructor; [|exact Hnd].
      rewrite <- mem_In. congruence.
    + intros Hnd. inversion Hnd as [|? ? Hn Hnd']; subst.
      split; [|exact Hnd'].
      destruct (mem n names) eqn:Hm; [|reflexivity].
      apply mem_In in Hm. contradiction.
Qed.

Section ColumnLoop.

(** The new column as a function of the old one. *)
Variable f : column -> result column.
Variable body : string -> DataFrame -> result DataFrame.

Hypothesis body_rewrites :
  forall col df df',
    body col df = Ok df' ->
    exists c c',
      lookup col (cols df) = Some c /\ f c = Ok c' /\ df' = setitem df col c'.

Lemma column_loop_others :
  forall names df df',
    for_each body names df = mkOutcome df' (Ok tt) ->
    forall name, ~ In name names ->
                 lookup name (cols df') = lookup name (cols df).
Proof.
  induction names as [|col names IH]; intros df df' H name Hn.
  - simpl in H. injection H as <-. reflexivity.
  - simpl in H. destruct (body col df) as [d|e] eqn:Hb; [|discriminate].
    destruct (body_rewrites Hb) as (c & c' & Hc & Hf & ->).
    rewrite (IH _ _ H name) by (intros Hin; apply Hn; right; exact Hin).
    simpl. apply lookup_replace_other.
    intros ->. apply Hn. left. reflexivity.
Qed.

(** Each named column ends as [f] of what it was, provided no name comes
    twice or [f] changes nothing the second time. *)
Lemma column_loop_named :
  forall names,
    NoDup names \/ (forall c c', f c = Ok c' -> f c' = Ok c') ->
    forall df df',
      for_each body names df = mkOutcome df' (Ok tt) ->
      forall name c,
        In name names -> lookup name (cols df) = Some c ->
        exists c', f c = Ok c' /\ lookup name (cols df') = Some c'.
Proof.
  induction names as [|col names IH]; intros Hdup df df' H name c Hin Hc.
  - destruct Hin.
  - simpl in H. destruct (body col df) as [d|e] eqn:Hb; [|discriminate].
    destruct (body_rewrites Hb) as (c0 & c1 & Hc0 & Hf & ->).
    assert (Hdup' : NoDup names
                    \/ (forall c c', f c = Ok c' -> f c' = Ok c')).
    { destruct Hdup as [Hnd|Hid]; [left | right; exact Hid].
      inversion Hnd; assumption. }
    destruct (String.eqb_spec name col) as [->|Hne].
    + rewrite Hc in Hc0. injection Hc0 as <-.
      assert (Hset : lookup col (cols (setitem df col c1)) = Some c1).
      { simpl. eapply lookup_replace_same; eauto. }
      destruct (in_dec string_dec col names) as [Hin'|Hout].
      * destruct Hdup as [Hnd|Hid].
        { inversion Hnd; contradiction. }
        destruct (IH Hdup' _ _ H col c1 Hin' Hset) as (c2 & Hf2 & Hl2).
        rewrite (Hid _ _ Hf) in Hf2. injection Hf2 as <-.
        exists c1. auto.
      * exists c1. split; [exact Hf|].
        rewrite (@column_loop_others _ _ _ H col Hout). exact Hset.
    + destruct Hin as [Heq|Hin]; [congruence|].
      apply (IH Hdup' _ _ H name c Hin).
      simpl. rewrite lookup_replace_other by exact Hne. exact Hc.
Qed.

End ColumnLoop.

(** ** Imputation by a statistic *)

Section Imputation.

Context {E : Externals}.

Definition statistic_strategies : list string :=
  ["mean"; "median"; "mode"]%string.

(** The statistic a strategy takes of a column. *)
Definition statistic (strategy : string) (c : column) : result cell :=
  if String.eqb strategy "mean" then series_mean c
  else if String.eqb strategy "median" then series_median c
  else series_mode0 c.

Definition impute_column (strategy : string) (c : column) : result column :=
  stat <- statistic strategy c ;; Ok (series_fillna stat c).

(** A missing cell takes the statistic, another cell stays. *)
Definition fill_cell (stat : cell) (x : cell) : cell :=
  match x with
  | None => stat
  | Some _ => x
  end.

Lemma impute_step_rewrites :
  forall strategy k,
    In strategy statistic_strategies ->
    forall col df df',
      impute_step strategy k col df = Ok df' ->
      exists c c',
        lookup col (cols df) = Some c
        /\ impute_column strategy c = Ok c'
        /\ df' = setitem df col c'.
Proof.
  intros strategy k Hs col df df' H.
  unfold impute_step, impute_column, statistic, getitem in *.
  simpl in Hs.
  destruct Hs as [<-|[<-|[<-|[]]]]; simpl in *;
    destruct (lookup col (cols df)) as [c|]; simpl in H; try discriminate;
    exists c;
    match type of H with
    | context [?stat c] =>
        destruct (stat c) as [m|]; simpl in H; [|discriminate]
    end;
    injection H as <-; eexists; simpl; auto.
Qed.

Lemma fillna_fillna :
  forall (A : Type) (v w : A) (xs : list (option A)),
    fillna w (fillna v xs) = fillna v xs.
Proof.
  intros A v w xs. unfold fillna. rewrite map_map.
  apply map_ext. intros [x|]; reflexivity.
Qed.

Lemma dropna_fillna_nonempty :
  forall (A : Type) (v : A) (xs : list (option A)),
    xs <> [] -> dropna (fillna v xs) <> [].
Proof.
  intros A v [|[x|] xs] H; simpl; congruence.
Qed.

Lemma dropna_nonempty :
  forall (A : Type) (xs : list (option A)), dropna xs <> [] -> xs <> [].
Proof. intros A [|x xs] H; simpl in *; congruence. Qed.

Lemma insert_uniq_nonempty :
  forall (A : Type) (cmp : A -> A -> comparison) x l,
    insert_uniq cmp x l <> [].
Proof.
  intros A cmp x [|y l]; simpl; [discriminate|].
  destruct (cmp x y); discriminate.
Qed.

Lemma mode_some :
  forall (A : Type) (cmp : A -> A -> comparison) (l : list A),
    l <> [] -> exists m, mode cmp l = Some m.
Proof.
  intros A cmp l Hl. unfold mode.
  assert (Hstep : forall u b,
             exists m,
               fold_left
                 (fun best v =>
                    match best with
                    | None => Some v
                    | Some b0 =>
                        if count cmp b0 l <? count cmp v l
                        then Some v else Some b0
                    end) u (Some b) = Some m).
  { induction u as [|v u IH]; intros b; simpl; [eauto|].
    destruct (count cmp b l <? count cmp v l); apply IH. }
  destruct l as [|x l]; [congruence|]. simpl.
  destruct (insert_uniq cmp x (unique cmp l)) as [|v u] eqn:Hu.
  - exfalso. eapply insert_uniq_nonempty; eauto.
  - simpl. apply Hstep.
Qed.

Lemma mode_none :
  forall (A : Type) (cmp : A -> A -> comparison) (l : list A),
    mode cmp l = None -> l = [].
Proof.
  intros A cmp l H. destruct l as [|x l]; [reflexivity|].
  destruct (@mode_some A cmp (x :: l)) as [m Hm]; congruence.
Qed.

Lemma dropna_all_none :
  forall (A B : Type) (xs : list A),
    dropna (map (fun _ => @None B) xs) = [].
Proof. intros A B xs. induction xs; simpl; auto. Qed.

Lemma all_missing_spec :
  forall (A : Type) (xs : list (option A)),
    all_missing xs = true <-> xs <> [] /\ dropna xs = [].
Proof.
  intros A xs. unfold all_missing.
  destruct xs as [|x xs]; [split; [discriminate | intros [H _]; congruence]|].
  destruct (dropna (x :: xs)); split; try discriminate; auto.
  - intros _. split; [discriminate | reflexivity].
  - intros [_ H]. discriminate.
Qed.

Lemma dropna_nil_all_none :
  forall (A : Type) (xs : list (option A)),
    dropna xs = [] -> Forall (fun x => x = None) xs.
Proof.
  intros A xs. induction xs as [|[x|] xs IH]; simpl; intros H.
  - constructor.
  - discriminate.
  - constructor; auto.
Qed.

(** *** What the three statistics are *)

Lemma sort_Q_sorted :
  forall vs, StronglySorted Qle (sort Qcompare vs).
Proof.
  intros vs. apply Sorted_StronglySorted.
  - intros x y z. apply Qle_trans.
  - pose proof (sort_sorted Q_total_cmp vs) as H.
    induction H as [|x l Hs IH Hhd]; constructor; [exact IH|].
    destruct Hhd as [|y l Hxy]; constructor. apply Qle_alt. exact Hxy.
Qed.

(** The middle of an ascending list: its middle value, or the average of
    its two middle values. *)
Definition middle (s : list Q) : Q :=
  if Nat.even (length s)
  then ((nth (length s / 2 - 1) s 0 + nth (length s / 2) s 0) / 2)%Q
  else nth (length s / 2) s 0%Q.

(** The mean times the number of values is their sum. *)
Lemma mean_spec :
  forall vs,
    (vs = [] /\ mean vs = None)
    \/ (exists m, mean vs = Some m
                  /\ (m * of_nat (length vs) == Qsum vs)%Q).
Proof.
  intros [|v vs]; [left; auto|]. right. eexists. split; [reflexivity|].
  apply Qdiv_mult_l. unfold of_nat, inject_Z, Qeq. simpl. lia.
Qed.

(** The median is the middle of the values put in ascending order. *)
Lemma median_spec :
  forall vs,
    (vs = [] /\ median vs = None)
    \/ (exists m s, median vs = Some m
                    /\ Permutation s vs
                    /\ StronglySorted Qle s
                    /\ m = middle s).
Proof.
  intros vs. destruct vs as [|v vs]; [left; auto|]. right.
  exists (middle (sort Qcompare (v :: vs))), (sort Qcompare (v :: vs)).
  split; [|split; [apply sort_perm | split; [apply sort_Q_sorted | reflexivity]]].
  unfold median, middle.
  destruct (length (sort Qcompare (v :: vs))) as [|n] eqn:Hn.
  - rewrite sort_length in Hn. discriminate.
  - destruct (Nat.even (S n)); reflexivity.
Qed.

(** Imputing an imputed column changes nothing. *)
Lemma impute_column_again :
  forall strategy c c',
    impute_column strategy c = Ok c' -> impute_column strategy c' = Ok c'.
Proof.
  intros strategy c c' H. unfold impute_column in *.
  destruct (statistic strategy c) as [stat|] eqn:Hs; simpl in H;
    [|discriminate].
  injection H as <-.
  destruct stat as [[q|t|b]|], c as [k xs|xs|bs]; simpl;
    try (rewrite Hs; reflexivity).
  - (* a number into a numeric column *)
    unfold statistic, series_mean, series_median, series_mode0 in *.
    destruct (String.eqb strategy "mean");
      [|destruct (String.eqb strategy "median")]; simpl in *.
    + destruct (mean (dropna (fillna q xs))); simpl;
        [rewrite fillna_fillna|]; reflexivity.
    + destruct (median (dropna (fillna q xs))); simpl;
        [rewrite fillna_fillna|]; reflexivity.
    + destruct (@mode_some Q Qcompare (dropna (fillna q xs))) as [q' Hq'].
      { apply dropna_fillna_nonempty. apply dropna_nonempty.
        intros Hd. rewrite Hd in Hs. discriminate. }
      rewrite Hq'. simpl. rewrite fillna_fillna. reflexivity.
  - (* a text into a text column *)
    unfold statistic, series_mean, series_median, series_mode0 in *.
    destruct (String.eqb strategy "mean");
      [|destruct (String.eqb strategy "median")]; simpl in *.
    + destruct (dropna xs); discriminate.
    + destruct (dropna xs); discriminate.
    + destruct (@mode_some string String.compare (dropna (fillna t xs)))
        as [q' Hq'].
      { apply dropna_fillna_nonempty. apply dropna_nonempty.
        intros Hd. rewrite Hd in Hs. discriminate. }
      rewrite Hq'. simpl. rewrite fillna_fillna. reflexivity.
  - (* NaN into a text column *)
    destruct (all_missing xs) eqn:Ha;
      [|rewrite Hs; simpl; rewrite Ha; reflexivity].
    unfold statistic, series_mean, series_median, series_mode0 in *.
    destruct (String.eqb strategy "mean");
      [|destruct (String.eqb strategy "median")]; simpl in *.
    + rewrite dropna_all_none. reflexivity.
    + rewrite dropna_all_none. reflexivity.
    + destruct (mode String.compare (dropna xs)); discriminate.
Qed.

(** Cell by cell, filling with the statistic of the same column. *)
Lemma series_fillna_cells :
  forall strategy c stat,
    statistic strategy c = Ok stat ->
    cells_of (series_fillna stat c) = map (fill_cell stat) (cells_of c).
Proof.
  intros strategy c stat H.
  assert (Hbool : forall bs (v : cell),
             map (fun b : bool => Some (VBool b)) bs
             = map (fill_cell v) (map (fun b => Some (VBool b)) bs)).
  { intros bs v. rewrite map_map. reflexivity. }
  assert (Hnone : forall (A : Type) (g : A -> value) (xs : list (option A)),
             map (option_map g) xs
             = map (fill_cell None) (map (option_map g) xs)).
  { intros A g xs. rewrite map_map. apply map_ext. intros [x|]; reflexivity. }
  assert (Hsome : forall (A : Type) (g : A -> value) (q : A) xs,
             map (option_map g) (fillna q xs)
             = map (fill_cell (Some (g q))) (map (option_map g) xs)).
  { intros A g q xs. unfold fillna. rewrite !map_map.
    apply map_ext. intros [x|]; reflexivity. }
  unfold statistic, series_mean, series_median, series_mode0 in H.
  destruct c as [k xs|xs|bs].
  - destruct stat as [[q|t|b]|]; simpl;
      try apply Hsome; try apply Hnone.
    + exfalso.
      destruct (String.eqb strategy "mean"); simpl in H;
        [destruct (mean (dropna xs)); discriminate|].
      destruct (String.eqb strategy "median"); simpl in H;
        [destruct (median (dropna xs)); discriminate|].
      destruct (mode Qcompare (dropna xs)); discriminate.
    + exfalso.
      destruct (String.eqb strategy "mean"); simpl in H;
        [destruct (mean (dropna xs)); discriminate|].
      destruct (String.eqb strategy "median"); simpl in H;
        [destruct (median (dropna xs)); discriminate|].
      destruct (mode Qcompare (dropna xs)); discriminate.
  - destruct stat as [[q|t|b]|]; simpl;
      try apply Hsome.
    + exfalso.
      destruct (String.eqb strategy "mean"); simpl in H;
        [destruct (dropna xs); discriminate|].
      destruct (String.eqb strategy "median"); simpl in H;
        [destruct (dropna xs); discriminate|].
      destruct (mode String.compare (dropna xs)); discriminate.
    + exfalso.
      destruct (String.eqb strategy "mean"); simpl in H;
        [destruct (dropna xs); discriminate|].
      destruct (String.eqb strategy "median"); simpl in H;
        [destruct (dropna xs); discriminate|].
      destruct (mode String.compare (dropna xs)); discriminate.
    + destruct (all_missing xs) eqn:Ha; simpl; [|apply Hnone].
      apply all_missing_spec in Ha. destruct Ha as [_ Ha].
      apply dropna_nil_all_none in Ha.
      clear H. induction Ha as [|x xs Hx Hxs IH]; simpl; [reflexivity|].
      subst x. simpl. rewrite IH. reflexivity.
  - destruct stat as [[q|t|b]|]; simpl; apply Hbool.
Qed.

Lemma fill_cell_no_missing :
  forall stat (xs : list cell),
    Forall (fun x => x <> None) xs -> map (fill_cell stat) xs = xs.
Proof.
  intros stat xs H. induction H as [|x xs Hx Hxs IH]; simpl; [reflexivity|].
  rewrite IH. destruct x; [reflexivity | congruence].
Qed.

Lemma series_fillna_no_missing :
  forall stat c,
    Forall (fun b => b = false) (isnull c) -> series_fillna stat c = c.
Proof.
  intros stat c H.
  assert (Hfill : forall (A : Type) (q : A) (xs : list (option A)),
             Forall (fun b => b = false) (map isnull_cell xs) ->
             fillna q xs = xs).
  { intros A q xs Hn. rewrite Forall_map in Hn. unfold fillna.
    induction Hn as [|x xs Hx Hxs IH]; simpl; [reflexivity|].
    rewrite IH. destruct x; [reflexivity | discriminate]. }
  destruct stat as [[q|t|b]|], c as [k xs|xs|bs]; simpl in *;
    try reflexivity; try (rewrite Hfill; auto; fail).
  destruct (all_missing xs) eqn:Ha; [|reflexivity].
  apply all_missing_spec in Ha. destruct Ha as [Hne Ha].
  apply dropna_nil_all_none in Ha.
  destruct xs as [|x xs]; [congruence|].
  inversion Ha; subst. inversion H; discriminate.
Qed.

Lemma returning_df_ok :
  forall (o : outcome unit) df',
    ret (returning_df o) = Ok df' -> o = mkOutcome df' (Ok tt).
Proof.
  intros [fin [[]|e]] df' H; simpl in H; [|discriminate].
  injection H as <-. reflexivity.
Qed.

(** The dtype changes in one case only: NaN written into a text column
    of missing cells. *)
Lemma series_fillna_dtype :
  forall stat c,
    dtype_of (series_fillna stat c) = dtype_of c
    \/ (stat = None
        /\ exists xs, c = Object xs /\ all_missing xs = true
                      /\ series_fillna stat c
                         = Numeric Float64 (map (fun _ => None) xs)).
Proof.
  intros [[q|t|b]|] [k xs|xs|bs]; try (left; reflexivity).
  simpl. destruct (all_missing xs) eqn:Ha; [|left; reflexivity].
  right. split; [reflexivity|]. exists xs. auto.
Qed.

Lemma statistic_all_missing_text :
  forall strategy xs stat,
    In strategy statistic_strategies ->
    dropna xs = [] ->
    statistic strategy (Object xs) = Ok stat -> stat = None.
Proof.
  intros strategy xs stat Hs Hd H.
  simpl in Hs.
  destruct Hs as [<-|[<-|[<-|[]]]];
    unfold statistic, series_mean, series_median, series_mode0, as_floats in H;
    simpl in H; rewrite Hd in H; simpl in H; congruence.
Qed.


End Imputation.

(** ** Label encoding *)

Section LabelEncoding.

Context {E : Externals}.

(** [codes] numbers the values of [xs] by rank: positions with equal
    values carry equal codes, a smaller value carries a smaller code, and
    the codes in use are the numbers below the count of distinct values. *)
Definition ordinal_codes (A : Type) (cmp : A -> A -> comparison)
    (xs : list A) (codes : list nat) : Prop :=
  length codes = length xs
  /\ (forall i j x y m n,
         nth_error xs i = Some x -> nth_error xs j = Some y ->
         nth_error codes i = Some m -> nth_error codes j = Some n ->
         Nat.compare m n = cmp x y)
  /\ (forall n, In n codes <-> n < length (unique cmp xs)).

Lemma encode_with_ordinal :
  forall (A : Type) (cmp : A -> A -> comparison) (xs : list A),
    total_cmp cmp -> ordinal_codes cmp xs (encode_with cmp xs).
Proof.
  intros A cmp xs H. split; [apply encode_with_length|]. split.
  - intros i j x y m n. apply (encode_with_compare H).
  - apply (encode_with_range H).
Qed.

(** The order the codes of a column follow: ascending values, a missing
    cell after all of them. *)
Definition codes_follow_order (c : column) (codes : list nat) : Prop :=
  match c with
  | Numeric _ xs => ordinal_codes (cmp_option Qcompare) xs codes
  | Object xs => ordinal_codes (cmp_option String.compare) xs codes
  | Boolean bs => ordinal_codes Bool.compare bs codes
  end.

Lemma label_codes_follow_order :
  forall c, codes_follow_order c (label_codes c).
Proof.
  intros [k xs|xs|bs]; simpl; apply encode_with_ordinal.
  - apply option_total_cmp, Q_total_cmp.
  - apply option_total_cmp, string_total_cmp.
  - apply bool_total_cmp.
Qed.

(** A strictly increasing map of the numbers below [N] onto the numbers
    below [M] moves none of them. *)
Lemma monotone_onto_identity :
  forall (h : nat -> nat) (N M : nat),
    (forall a b, a < N -> b < N ->
                 Nat.compare (h a) (h b) = Nat.compare a b) ->
    (forall m, m < M <-> exists a, a < N /\ h a = m) ->
    forall n, n < N -> h n = n.
Proof.
  intros h N M Hmono Honto n.
  induction n as [n IH] using lt_wf_ind. intros Hn.
  assert (Hge : n <= h n).
  { destruct n as [|p]; [lia|].
    assert (Hp : h p = p) by (apply IH; lia).
    assert (Hc : Nat.compare (h p) (h (S p)) = Lt).
    { rewrite Hmono by lia. apply Nat.compare_lt_iff. lia. }
    apply Nat.compare_lt_iff in Hc. lia. }
  destruct (Nat.eq_dec (h n) n) as [Heq|Hne]; [exact Heq|].
  assert (HM : h n < M) by (apply Honto; exists n; auto).
  assert (Hhit : n < M) by lia.
  apply Honto in Hhit. destruct Hhit as (a & Ha & Han).
  destruct (Nat.lt_trichotomy a n) as [Hlt|[->|Hgt]].
  - rewrite IH in Han by lia. lia.
  - exact Han.
  - assert (Hc : Nat.compare (h n) (h a) = Lt).
    { rewrite Hmono by lia. apply Nat.compare_lt_iff. exact Hgt. }
    apply Nat.compare_lt_iff in Hc. lia.
Qed.

Lemma Qcompare_of_nat :
  forall a b, Qcompare (of_nat a) (of_nat b) = Nat.compare a b.
Proof.
  intros a b. unfold of_nat, Qcompare. simpl.
  rewrite !Z.mul_1_r. apply Nat2Z.inj_compare.
Qed.

(** Codes that fill an initial segment are their own codes. *)
Lemma encode_codes_again :
  forall (codes : list nat) (N : nat),
    (forall n, In n codes <-> n < N) ->
    encode_with (cmp_option Qcompare)
      (map (fun n => Some (of_nat n)) codes) = codes.
Proof.
  intros codes N Hseg.
  pose proof (option_total_cmp Q_total_cmp) as Htot.
  set (g := fun n : nat => Some (of_nat n)).
  set (U := unique (cmp_option Qcompare) (map g codes)).
  assert (Hmem : forall a, a < N ->
             existsb (eqb_of (cmp_option Qcompare) (g a)) U = true).
  { intros a Ha. unfold U. rewrite (unique_mem Htot).
    apply existsb_exists. exists (g a). split.
    - apply in_map. apply Hseg. exact Ha.
    - unfold eqb_of. rewrite (cmp_refl Htot). reflexivity. }
  assert (Hid : forall n, n < N ->
             index_of (cmp_option Qcompare) (g n) U = n).
  { apply (monotone_onto_identity
             (fun n => index_of (cmp_option Qcompare) (g n) U)
             (M := length U)).
    - intros a b Ha Hb.
      rewrite (@index_of_compare _ _ Htot U (g a) (g b)
                 (unique_sorted Htot (map g codes)) (Hmem a Ha) (Hmem b Hb)).
      simpl. apply Qcompare_of_nat.
    - intros m. unfold U.
      rewrite <- (encode_with_range Htot (map g codes) m).
      unfold encode_with. fold U. rewrite map_map, in_map_iff.
      split; intros (a & H1 & H2).
      + exists a. split; [apply Hseg; exact H2 | exact H1].
      + exists a. split; [exact H2 | apply Hseg; exact H1]. }
  unfold encode_with. fold U. rewrite map_map.
  rewrite <- (map_id codes) at 2. apply map_ext_in.
  intros n Hn. apply Hid. apply Hseg. exact Hn.
Qed.

(** Encoding an encoded column gives the same codes. *)
Lemma label_fit_transform_again :
  forall c, label_fit_transform (label_fit_transform c) = label_fit_transform c.
Proof.
  intros c.
  assert (Hseg : exists N, forall n, In n (label_codes c) <-> n < N).
  { pose proof (label_codes_follow_order c) as H.
    destruct c as [k xs|xs|bs]; simpl in H;
      destruct H as (_ & _ & Hr); eexists; exact Hr. }
  destruct Hseg as [N HN].
  unfold label_fit_transform. simpl.
  rewrite (encode_codes_again _ HN). reflexivity.
Qed.

Lemma label_step_rewrites :
  forall col df df',
    label_step col df = Ok df' ->
    exists c c',
      lookup col (cols df) = Some c
      /\ Ok (label_fit_transform c) = Ok c'
      /\ df' = setitem df col c'.
Proof.
  intros col df df' H. unfold label_step, getitem in H.
  destruct (lookup col (cols df)) as [c|]; simpl in H; [|discriminate].
  apply setitem_array_ok in H. destruct H as [-> _].
  exists c, (label_fit_transform c). auto.
Qed.

(** C6, as the code has it.  When label encoding returns, every column
    not named is as it was and every named column holds the codes of its
    own former values: the codes 0, 1, 2, ... are given in ascending
    order of the distinct values of that column (a missing cell last),
    not in order of first appearance, and they depend on no other
    column. *)
Theorem C6_label_codes_by_sorted_order :
  forall (df : DataFrame) (columns : list string) (df' : DataFrame),
    ret (encode_categorical df columns "label") = Ok df' ->
    (forall name,
        ~ In name columns -> lookup name (cols df') = lookup name (cols df))
    /\ (forall name c,
          In name columns ->
          lookup name (cols df) = Some c ->
          lookup name (cols df')
          = Some (Numeric Float64 (map (fun n => Some (of_nat n)) (label_codes c)))
          /\ codes_follow_order c (label_codes c)).
Proof.
  intros df columns df' H. unfold encode_categorical in H.
  simpl in H. apply returning_df_ok in H. split.
  - intros name Hn.
    apply (@column_loop_others (fun c => Ok (label_fit_transform c)) _
             label_step_rewrites _ _ _ H name Hn).
  - intros name c Hin Hc.
    assert (Hagain : forall c0 c1 : column,
               Ok (label_fit_transform c0) = Ok c1 ->
               @Ok column (label_fit_transform c1) = Ok c1).
    { intros c0 c1 H0. injection H0 as <-.
      rewrite label_fit_transform_again. reflexivity. }
    destruct (@column_loop_named (fun c => Ok (label_fit_transform c)) _
                label_step_rewrites _ (or_intror Hagain) _ _ H name c Hin Hc)
      as (c' & Hf & Hl).
    injection Hf as <-. split; [exact Hl|].
    apply label_codes_follow_order.
Qed.

End LabelEncoding.

(** ** One-hot encoding *)

Section OneHot.

Context {E : Externals}.

(** The columns one-hot encoding keeps: those not named. *)
Definition kept_columns (names : list string) (df : DataFrame)
  : list (string * column) :=
  filter (fun nc => negb (mem (fst nc) names)) (cols df).

(** The indicator columns it appends, name by name. *)
Definition indicator_columns (names : list string) (df : DataFrame)
  : list (string * column) :=
  flat_map (fun name =>
              match lookup name (cols df) with
              | Some c => dummies_1d name c
              | None => []
              end) names.

(** The categories of a text column: its distinct values, ascending. *)
Definition levels (xs : list (option string)) : list string :=
  unique String.compare (dropna xs).

Lemma getitems_indicators :
  forall df names data,
    getitems df names = Ok data ->
    flat_map (fun nc => dummies_1d (fst nc) (snd nc)) data
    = indicator_columns names df.
Proof.
  intros df names. unfold indicator_columns.
  induction names as [|n names IH]; intros data H; simpl in H.
  - injection H as <-. reflexivity.
  - unfold getitem in H.
    destruct (lookup n (cols df)) as [c|] eqn:Hc; simpl in H; [|discriminate].
    destruct (getitems df names) as [rest|]; simpl in H; [|discriminate].
    injection H as <-. simpl. rewrite Hc, (IH rest eq_refl). reflexivity.
Qed.

Lemma dropna_In :
  forall (A : Type) (v : A) (xs : list (option A)),
    In v (dropna xs) <-> In (Some v) xs.
Proof.
  intros A v xs. induction xs as [|[x|] xs IH]; simpl.
  - tauto.
  - rewrite IH. split; intros [H|H]; auto; left; congruence.
  - rewrite IH. split; [auto|]. intros [H|H]; [discriminate | exact H].
Qed.

Lemma indicator_at :
  forall (l : string) (xs : list (option string)) (i : nat) (x : option string),
    nth_error xs i = Some x ->
    exists bs,
      indicator String.eqb l xs = Boolean bs
      /\ nth_error bs i
         = Some (match x with Some v => String.eqb v l | None => false end).
Proof.
  intros l xs i x H. eexists. split; [reflexivity|].
  rewrite nth_error_map, H. reflexivity.
Qed.

(** C7, as the code has it.  One-hot encoding leaves the caller's dataset
    alone and returns the columns not named, in order, followed by the
    indicator columns of each named column.  A text column with N
    distinct observed values gives N - 1 boolean indicators named
    <column>_<category>, one per category but the least in ascending
    order, which is the reference; a row holding the reference has every
    indicator false, a row holding another category has the indicator of
    that category true.  With red, green, blue in a column the indicators
    are color_green and color_red, and the rows of red have color_red
    true. *)
Theorem C7_one_hot_drops_least_category :
  (forall (df : DataFrame) (names : list string) (df' : DataFrame),
      ret (encode_categorical df names "one_hot") = Ok df' ->
      final (encode_categorical df names "one_hot") = df
      /\ cols df' = kept_columns names df ++ indicator_columns names df
      /\ (forall name, In name names ->
                       ~ In name (map fst (kept_columns names df))))
  /\ (forall (name : string) (xs : list (option string)),
        dummies_1d name (Object xs)
        = map (fun l => ((name ++ "_" ++ l)%string, indicator String.eqb l xs))
              (tl (levels xs))
        /\ length (dummies_1d name (Object xs))
           = length (nodup string_dec (dropna xs)) - 1
        /\ StronglySorted (fun a b => String.compare a b = Lt) (levels xs)
        /\ (forall l, In l (levels xs) <-> In (Some l) xs)
        /\ (forall ref i nc,
              hd_error (levels xs) = Some ref ->
              nth_error xs i = Some (Some ref) ->
              In nc (dummies_1d name (Object xs)) ->
              exists bs, snd nc = Boolean bs /\ nth_error bs i = Some false)
        /\ (forall l i,
              In l (tl (levels xs)) ->
              nth_error xs i = Some (Some l) ->
              exists bs,
                In ((name ++ "_" ++ l)%string, Boolean bs)
                   (dummies_1d name (Object xs))
                /\ nth_error bs i = Some true))
  /\ ret (encode_categorical Samples.colors ["color"%string] "one_hot")
     = Ok Samples.colors_encoded.
Proof.
  split; [|split; [|reflexivity]].
  - intros df names df' H. unfold encode_categorical in *. simpl in *.
    split; [reflexivity|]. unfold get_dummies in H.
    destruct (getitems df names) as [data|] eqn:Hd; simpl in H; [|discriminate].
    destruct (has_repeat names); [discriminate|].
    injection H as <-. simpl. split.
    + rewrite (getitems_indicators _ _ Hd). reflexivity.
    + intros name Hin Hk. apply in_map_iff in Hk.
      destruct Hk as ([n c] & <- & Hf). apply filter_In in Hf.
      destruct Hf as [_ Hm]. simpl in *.
      apply negb_true_iff in Hm.
      apply mem_In in Hin. congruence.
  - intros name xs.
    pose proof (unique_sorted string_total_cmp (dropna xs)) as Hsorted.
    split; [reflexivity|]. split; [|split; [exact Hsorted|split; [|split]]].
    + unfold dummies_1d. rewrite length_map, <- unique_string_count.
      destruct (unique String.compare (dropna xs)); simpl; lia.
    + intros l. unfold levels. rewrite unique_string_In. apply dropna_In.
    + intros ref i nc Href Hi Hnc. unfold dummies_1d in Hnc.
      fold (levels xs) in Hnc, Hsorted.
      apply in_map_iff in Hnc. destruct Hnc as (l & <- & Hl).
      destruct (indicator_at l xs i Hi) as (bs & Hb & Hn).
      exists bs. split; [exact Hb|]. rewrite Hn. f_equal.
      destruct (levels xs) as [|r rest]; simpl in *; [discriminate|].
      injection Href as ->. inversion Hsorted as [|? ? _ Hall]; subst.
      rewrite Forall_forall in Hall. specialize (Hall l Hl).
      apply String.eqb_neq. intros ->.
      rewrite string_compare_refl in Hall. discriminate.
    + intros l i Hl Hi.
      destruct (indicator_at l xs i Hi) as (bs & Hb & Hn).
      exists bs. split.
      * unfold dummies_1d. fold (levels xs). apply in_map_iff.
        exists l. split; [rewrite Hb; reflexivity | exact Hl].
      * rewrite Hn, String.eqb_refl. reflexivity.
Qed.

End OneHot.

(* ================================================================== *)
(** * The properties on the sample frames *)

Section OnSamples.

Import Samples.
Local Open Scope string_scope.

(** C1 on the sample: dropping the rows with a missing cell. *)
Lemma C1_row_count_witness :
  wf people
  /\ ((wf (final (apply_stage (MissingValues "drop" None 5) people))
       /\ nrows (final (apply_stage (MissingValues "drop" None 5) people))
          = nrows people)
      /\ forall df',
           ret (apply_stage (MissingValues "drop" None 5) people) = Ok df' ->
           wf df'
           /\ nrows df' <= nrows people
           /\ (nrows df' <> nrows people ->
               removes_rows (MissingValues "drop" None 5) = true)).
Proof.
  split; [repeat constructor|].
  apply (C1_row_count (MissingValues "drop" None 5) (df := people)).
  repeat constructor.
Defined.

(** C2 fails: label encoding of a known and an unknown column raises
    and leaves the known column encoded in the caller's dataset. *)
Lemma C2_counterexample :
  ret (encode_categorical people ["city"; "zz"] "label") = Raise KeyError
  /\ final (encode_categorical people ["city"; "zz"] "label") <> people.
Proof.
  split; [reflexivity|]. intros H. vm_compute in H. discriminate H.
Qed.

Lemma C2_state_after_failure_witness :
  ret (apply_stage (EncodeCategorical ["city"; "zz"] "label") people)
  = Raise KeyError
  /\ exists done failing rest,
      ["city"; "zz"] = (done ++ failing :: rest)%list
      /\ for_each label_step done people
         = mkOutcome
             (final (apply_stage (EncodeCategorical ["city"; "zz"] "label")
                       people))
             (Ok tt)
      /\ label_step failing
           (final (apply_stage (EncodeCategorical ["city"; "zz"] "label")
                     people))
         = Raise KeyError.
Proof.
  split; [reflexivity|].
  exact (C2_state_after_failure
           (EncodeCategorical ["city"; "zz"] "label") people eq_refl).
Defined.



(** C5 fails: with no row the null percentages are NaN, not 0. *)
Lemma C5_counterexample :
  exists rows,
    data_quality_report no_rows = Ok rows
    /\ map NullPercentage rows = [NaN; NaN]
    /\ ~ Forall (fun r => exists q, NullPercentage r = Finite q /\ (q == 0)%Q)
         rows.
Proof.
  eexists. split; [reflexivity|]. split; [reflexivity|].
  intros H. inversion H as [|r rows (q & Hq & _) _]; subst.
  discriminate Hq.
Qed.

Lemma C5_report_without_rows_witness :
  wf no_rows
  /\ nrows no_rows = 0
  /\ exists rows,
      data_quality_report no_rows = Ok rows
      /\ map Column rows = Frame.columns no_rows
      /\ Forall (fun r => NullPercentage r = NaN) rows.
Proof.
  split; [repeat constructor|]. split; [reflexivity|].
  apply (C5_report_without_rows (df := no_rows));
    [repeat constructor | reflexivity].
Defined.

(** C6 fails: red, green, blue, red is coded 2, 1, 0, 2 where first
    appearance would give 0, 1, 2, 0. *)
Lemma C6_counterexample :
  (exists df',
      ret (encode_categorical colors ["color"] "label") = Ok df'
      /\ lookup "color" (cols df')
         = Some (Numeric Float64 [Some 2; Some 1; Some 0; Some 2]%Q))
  /\ first_seen_codes (cmp_option String.compare)
       [Some "red"; Some "green"; Some "blue"; Some "red"]
     = [0; 1; 2; 0]
  /\ label_codes (Object [Some "red"; Some "green"; Some "blue"; Some "red"])
     <> first_seen_codes (cmp_option String.compare)
          [Some "red"; Some "green"; Some "blue"; Some "red"].
Proof.
  split; [eexists; split; reflexivity|]. split; [reflexivity|].
  intros H. vm_compute in H. discriminate H.
Qed.

Lemma C6_label_codes_by_sorted_order_witness :
  ret (encode_categorical colors ["color"; "color"] "label")
     = Ok (mkDF 4 [("color", Numeric Float64 [Some 2; Some 1; Some 0; Some 2]%Q);
                   ("n", Numeric Float64 [Some 1; Some 2; None; Some 4]%Q)])
  /\ lookup "n"
       (cols (mkDF 4 [("color",
                       Numeric Float64 [Some 2; Some 1; Some 0; Some 2]%Q);
                      ("n", Numeric Float64 [Some 1; Some 2; None; Some 4]%Q)]))
     = lookup "n" (cols colors).
Proof.
  split; [reflexivity|].
  refine (proj1 (@C6_label_codes_by_sorted_order _ colors ["color"; "color"] _
                   eq_refl) "n" _).
  simpl. intros [H|[H|[]]]; discriminate H.
Defined.

(** C7 fails: with red seen first the indicators are color_green and
    color_red; there is no color_blue, and the rows of red are true in
    color_red. *)
Lemma C7_counterexample :
  exists df',
    ret (encode_categorical colors ["color"] "one_hot") = Ok df'
    /\ Frame.columns df' = ["n"; "color_green"; "color_red"]
    /\ ~ In "color_blue" (Frame.columns df')
    /\ lookup "color_red" (cols df')
       = Some (Boolean [true; false; false; true]).
Proof.
  eexists. split; [reflexivity|]. split; [reflexivity|].
  split; [|reflexivity].
  simpl. intros [H|[H|[H|[]]]]; discriminate H.
Qed.

Lemma C7_one_hot_drops_least_category_witness :
  ret (encode_categorical colors ["color"] "one_hot") = Ok colors_encoded
  /\ cols colors_encoded
     = (kept_columns ["color"] colors ++ indicator_columns ["color"] colors)%list.
Proof.
  split; [reflexivity|].
  apply (proj1 C7_one_hot_drops_least_category colors ["color"]
           colors_encoded eq_refl).
Defined.

Lemma C8_remove_duplicates_idempotent_witness :
  wf repeated
  /\ exists d,
      remove_duplicates repeated None = Ok d
      /\ remove_duplicates d None = Ok d.
Proof.
  split; [repeat constructor|].
  apply (C8_remove_duplicates_idempotent (df := repeated)).
  repeat constructor.
Defined.

(** C9 fails: an unknown strategy and an unknown encoding come back with
    the dataset and no error. *)
Lemma C9_counterexample :
  ret (handle_missing_values people "bogus" None 5) = Ok people
  /\ ret (encode_categorical people ["city"] "bogus") = Ok people.
Proof. split; reflexivity. Qed.

Lemma C9_unsupported_names_pass_through_witness :
  ~ In "bogus" supported_strategies
  /\ ~ In "bogus" supported_encodings
  /\ handle_missing_values people "bogus" None 5 = mkOutcome people (Ok people)
  /\ encode_categorical people ["city"] "bogus" = mkOutcome people (Ok people).
Proof.
  assert (H1 : ~ In "bogus" supported_strategies).
  { simpl. intros [H|[H|[H|[H|[H|[]]]]]]; discriminate H. }
  assert (H2 : ~ In "bogus" supported_encodings).
  { simpl. intros [H|[H|[]]]; discriminate H. }
  split; [exact H1|]. split; [exact H2|].
  apply (C9_unsupported_names_pass_through people None 5 ["city"] H1 H2).
Defined.

End OnSamples.

(* ================================================================== *)
(** * Further properties of the wrappers *)

(** ** Dropping the rows with a missing cell *)

Section DropRows.

Context {E : Externals}.

Lemma mask_filter_map :
  forall (A B : Type) (f : A -> B) (mask : list bool) (xs : list A),
    mask_filter mask (map f xs) = map f (mask_filter mask xs).
Proof.
  intros A B f mask. induction mask as [|b mask IH]; intros xs.
  - reflexivity.
  - destruct xs as [|x xs]; destruct b; simpl; try reflexivity;
      rewrite IH; reflexivity.
Qed.

Lemma isnull_filter_col :
  forall mask c, isnull (filter_col mask c) = mask_filter mask (isnull c).
Proof.
  intros mask [k xs|xs|bs]; simpl; rewrite mask_filter_map; reflexivity.
Qed.

Lemma isnull_length :
  forall c, length (isnull c) = len c.
Proof. intros [k xs|xs|bs]; simpl; apply length_map. Qed.

(** Under a mask that holds only where the list is false, what is kept
    is false. *)
Lemma mask_filter_all_false :
  forall (p : nat -> bool) (bs : list bool) (s : nat),
    (forall i, i < length bs -> p (s + i) = true -> nth i bs false = false) ->
    Forall (fun b => b = false)
           (mask_filter (map p (seq s (length bs))) bs).
Proof.
  intros p bs. induction bs as [|b bs IH]; intros s H; simpl.
  - constructor.
  - assert (Hrest : Forall (fun b0 => b0 = false)
                      (mask_filter (map p (seq (S s) (length bs))) bs)).
    { apply IH. intros i Hi Hp. apply (H (S i)); [simpl; lia|].
      rewrite Nat.add_succ_r. exact Hp. }
    destruct (p s) eqn:Hp; [|exact Hrest].
    constructor; [|exact Hrest].
    apply (H 0); [simpl; lia|]. rewrite Nat.add_0_r. exact Hp.
Qed.

(** The mask of [dropna_rows] over the selected columns. *)
Definition complete_mask (sel : list column) (n : nat) : list bool :=
  map (fun i => forallb (fun c => negb (nth i (isnull c) false)) sel)
      (seq 0 n).

Lemma complete_mask_no_missing :
  forall sel n c,
    In c sel -> len c = n ->
    Forall (fun b => b = false)
           (isnull (filter_col (complete_mask sel n) c)).
Proof.
  intros sel n c Hin Hlen. rewrite isnull_filter_col.
  unfold complete_mask. rewrite <- Hlen, <- isnull_length.
  apply mask_filter_all_false. intros i Hi Hp. simpl in Hp.
  rewrite forallb_forall in Hp. specialize (Hp c Hin).
  apply negb_true_iff in Hp. exact Hp.
Qed.

Lemma lookup_In_pair :
  forall name l c, lookup name l = Some c -> In (name, c) l.
Proof.
  intros name l. induction l as [|[n c0] l IH]; intros c H; simpl in H.
  - discriminate.
  - destruct (String.eqb_spec n name) as [->|Hne].
    + injection H as <-. left. reflexivity.
    + right. apply IH. exact H.
Qed.

Lemma lookup_filter_rows :
  forall mask df name,
    lookup name (cols (filter_rows mask df))
    = option_map (filter_col mask) (lookup name (cols df)).
Proof.
  intros mask df name. unfold filter_rows. simpl.
  induction (cols df) as [|[n c] l IH]; simpl; [reflexivity|].
  destruct (String.eqb n name); [reflexivity | exact IH].
Qed.

Lemma In_select :
  forall names df name c,
    In name names -> In (name, c) (cols df) -> In c (select names df).
Proof.
  intros names df name c Hn Hc. unfold select.
  apply in_map_iff. exists (name, c). split; [reflexivity|].
  apply filter_In. split; [exact Hc|]. simpl. apply mem_In. exact Hn.
Qed.

Lemma forallb_mem_columns :
  forall df names,
    forallb (fun n => mem n (Frame.columns df)) names = true
    <-> forall n, In n names -> In n (Frame.columns df).
Proof.
  intros df names. rewrite forallb_forall. split; intros H n Hn.
  - apply mem_In. apply H. exact Hn.
  - apply mem_In. apply H. exact Hn.
Qed.

Lemma drop_call :
  forall df columns k,
    handle_missing_values df "drop" columns k
    = pure_call df (dropna_rows df (resolved_columns df columns)).
Proof.
  intros df columns k. rewrite handle_missing_values_unfold. reflexivity.
Qed.

(** X1.  The drop strategy fails only for a listed name that is not a column,
    always with KeyError; over all the columns (no list, or an empty one)
    it cannot fail.  The caller's dataset is never touched. *)
Theorem drop_fails_iff_unknown_column :
  forall (df : DataFrame) (columns : option (list string)) (k : nat),
    final (handle_missing_values df "drop" columns k) = df
    /\ (forall e, ret (handle_missing_values df "drop" columns k) = Raise e ->
                  e = KeyError)
    /\ ((exists e, ret (handle_missing_values df "drop" columns k) = Raise e)
        <-> exists n, In n (resolved_columns df columns)
                      /\ ~ In n (Frame.columns df))
    /\ (Py.truthy columns = false ->
        exists df', ret (handle_missing_values df "drop" columns k) = Ok df').
Proof.
  intros df columns k. rewrite drop_call. simpl.
  split; [reflexivity|]. unfold dropna_rows.
  destruct (forallb (fun n => mem n (Frame.columns df))
              (resolved_columns df columns)) eqn:Hall.
  - split; [discriminate|]. split.
    + split; [intros [e He]; discriminate|].
      intros (n & Hn & Hout). exfalso. apply Hout.
      rewrite forallb_mem_columns in Hall. apply Hall. exact Hn.
    + intros _. eexists. reflexivity.
  - split; [intros e He; congruence|]. split.
    + split; [|intros _; eexists; reflexivity].
      intros _.
      destruct (existsb (fun n => negb (mem n (Frame.columns df)))
                  (resolved_columns df columns)) eqn:Hex.
      * apply existsb_exists in Hex. destruct Hex as (n & Hn & Hm).
        exists n. split; [exact Hn|]. intros Hin.
        apply mem_In in Hin. rewrite Hin in Hm. discriminate.
      * exfalso. rewrite <- not_true_iff_false in Hall. apply Hall.
        apply forallb_forall. intros n Hn.
        destruct (mem n (Frame.columns df)) eqn:Hm; [reflexivity|].
        rewrite <- not_true_iff_false in Hex. exfalso. apply Hex.
        apply existsb_exists. exists n. rewrite Hm. auto.
    + intros Ht. exfalso.
      assert (Hres : resolved_columns df columns = Frame.columns df).
      { destruct columns as [[|n names]|]; simpl in *;
          try reflexivity; discriminate. }
      rewrite Hres in Hall. rewrite <- not_true_iff_false in Hall.
      apply Hall. apply forallb_mem_columns. auto.
Qed.

(** X2.  When the drop strategy returns from a well-formed dataset, the
    result has the same columns in the same order and no missing cell in
    any listed column. *)
Theorem drop_leaves_no_missing :
  forall (df : DataFrame) (columns : option (list string)) (k : nat)
         (df' : DataFrame),
    wf df ->
    ret (handle_missing_values df "drop" columns k) = Ok df' ->
    Frame.columns df' = Frame.columns df
    /\ forall name c',
        In name (resolved_columns df columns) ->
        lookup name (cols df') = Some c' ->
        Forall (fun b => b = false) (isnull c').
Proof.
  intros df columns k df' Hwf H. rewrite drop_call in H. simpl in H.
  unfold dropna_rows in H.
  destruct (forallb _ (resolved_columns df columns)); [|discriminate].
  injection H as <-. split; [apply columns_filter_rows|].
  intros name c' Hin Hl. rewrite lookup_filter_rows in Hl.
  destruct (lookup name (cols df)) as [c|] eqn:Hc; [|discriminate].
  injection Hl as <-. apply lookup_In_pair in Hc.
  apply (@complete_mask_no_missing
           (select (resolved_columns df columns) df) (nrows df) c).
  - eapply In_select; eauto.
  - unfold wf in Hwf. rewrite Forall_forall in Hwf. apply (Hwf _ Hc).
Qed.

Lemma complete_mask_all_true :
  forall sel n,
    Forall (fun c => Forall (fun b => b = false) (isnull c)) sel ->
    complete_mask sel n = map negb (map (fun _ => false) (seq 0 n)).
Proof.
  intros sel n H. unfold complete_mask. rewrite map_map.
  apply map_ext. intros i. simpl. apply forallb_forall.
  intros c Hc. rewrite Forall_forall in H. specialize (H c Hc).
  apply negb_true_iff.
  destruct (Nat.lt_ge_cases i (length (isnull c))) as [Hlt|Hge].
  - rewrite Forall_forall in H. apply H. apply nth_In. exact Hlt.
  - apply nth_overflow. exact Hge.
Qed.

Lemma dropna_rows_complete :
  forall df names,
    wf df ->
    (forall n, In n names -> In n (Frame.columns df)) ->
    Forall (fun c => Forall (fun b => b = false) (isnull c))
           (select names df) ->
    dropna_rows df names = Ok df.
Proof.
  intros df names Hwf Hnames Hsel. unfold dropna_rows.
  rewrite (proj2 (forallb_mem_columns df names) Hnames).
  fold (complete_mask (select names df) (nrows df)).
  rewrite (complete_mask_all_true _ Hsel).
  rewrite filter_rows_all_true; [reflexivity | exact Hwf | apply length_seq].
Qed.

(** X3.  The drop strategy returns a well-formed dataset as it is when no
    listed column has a missing cell; so dropping a second time changes
    nothing. *)
Theorem drop_is_idempotent :
  forall (df : DataFrame) (columns : option (list string)) (k : nat)
         (df' : DataFrame),
    wf df ->
    ret (handle_missing_values df "drop" columns k) = Ok df' ->
    ret (handle_missing_values df' "drop" columns k) = Ok df'
    /\ ((forall name c, In name (resolved_columns df columns) ->
                        In (name, c) (cols df) ->
                        Forall (fun b => b = false) (isnull c)) ->
        df' = df).
Proof.
  intros df columns k df' Hwf H.
  pose proof H as H0. rewrite drop_call in H0. simpl in H0.
  unfold dropna_rows in H0.
  destruct (forallb (fun n => mem n (Frame.columns df))
              (resolved_columns df columns)) eqn:Hall; [|discriminate].
  rewrite forallb_mem_columns in Hall.
  fold (complete_mask (select (resolved_columns df columns) df) (nrows df))
    in H0.
  split.
  - assert (Hcols : Frame.columns df' = Frame.columns df).
    { injection H0 as <-. apply columns_filter_rows. }
    assert (Hres : resolved_columns df' columns = resolved_columns df columns).
    { destruct columns as [[|n names]|]; simpl; auto. }
    rewrite drop_call. simpl. rewrite Hres.
    apply dropna_rows_complete.
    + injection H0 as <-. apply filter_rows_wf. exact Hwf.
    + rewrite Hcols. exact Hall.
    + injection H0 as <-. rewrite select_filter_rows.
      rewrite Forall_map. apply Forall_forall. intros c Hc.
      apply (@complete_mask_no_missing
               (select (resolved_columns df columns) df) (nrows df) c Hc).
      pose proof (select_len (resolved_columns df columns) Hwf) as Hlen.
      rewrite Forall_forall in Hlen. apply Hlen. exact Hc.
  - intros Hfull.
    assert (Hsel : Forall (fun c => Forall (fun b => b = false) (isnull c))
                     (select (resolved_columns df columns) df)).
    { apply Forall_forall. intros c Hc. unfold select in Hc.
      apply in_map_iff in Hc. destruct Hc as ([n c0] & Heq & Hf).
      simpl in Heq. subst c0. apply filter_In in Hf. destruct Hf as [Hin Hm].
      simpl in Hm. apply mem_In in Hm. apply (Hfull n c Hm Hin). }
    rewrite (complete_mask_all_true _ Hsel) in H0.
    rewrite filter_rows_all_true in H0;
      [congruence | exact Hwf | apply length_seq].
Qed.

End DropRows.

(** ** When a loop over columns succeeds *)

Section LoopSuccess.

Variable body : string -> DataFrame -> result DataFrame.
Variable Inv : DataFrame -> Prop.
Variable good : DataFrame -> string -> Prop.

Hypothesis body_ok_iff :
  forall col df, Inv df -> ((exists df', body col df = Ok df') <-> good df col).
Hypothesis body_keeps :
  forall col df df',
    Inv df -> body col df = Ok df' ->
    Inv df' /\ forall name, good df' name <-> good df name.

(** The loop returns exactly when every name is good in the frame it
    started from. *)
Lemma for_each_ok_iff :
  forall names df,
    Inv df ->
    ((exists df', for_each body names df = mkOutcome df' (Ok tt))
     <-> forall name, In name names -> good df name).
Proof.
  induction names as [|col names IH]; intros df Hinv; simpl.
  - split; [intros _ name [] | intros _; eexists; reflexivity].
  - destruct (body col df) as [d|e] eqn:Hb.
    + destruct (body_keeps Hinv Hb) as [Hinv' Hgood].
      rewrite (IH d Hinv'). split.
      * intros H name [<-|Hn].
        -- apply (body_ok_iff col Hinv). exists d. exact Hb.
        -- apply Hgood. apply H. exact Hn.
      * intros H name Hn. apply Hgood. apply H. right. exact Hn.
    + split; [intros [d Hd]; discriminate|].
      intros H. exfalso.
      assert (Hg : good df col) by (apply H; left; reflexivity).
      apply (body_ok_iff col Hinv) in Hg. destruct Hg as [d Hd]. congruence.
Qed.

End LoopSuccess.

(** ** What imputation leaves behind *)

Section ImputationOutcome.

Context {E : Externals}.

(** The number of non-missing cells of a column, as the quality report
    counts them. *)
Definition non_null_count (c : column) : nat :=
  count_true (map negb (isnull c)).

Lemma non_null_count_dropna :
  forall (A : Type) (xs : list (option A)),
    count_true (map negb (map isnull_cell xs)) = length (dropna xs).
Proof.
  intros A xs. unfold count_true.
  induction xs as [|[x|] xs IH]; simpl; auto.
Qed.

Lemma non_null_count_bool :
  forall (bs : list bool),
    count_true (map negb (map (fun _ : bool => false) bs)) = length bs.
Proof.
  intros bs. unfold count_true. induction bs as [|b bs IH]; simpl; auto.
Qed.

Lemma series_mode0_ok_iff :
  forall c, (exists stat, series_mode0 c = Ok stat) <-> 0 < non_null_count c.
Proof.
  intros c. unfold series_mode0, non_null_count.
  destruct c as [k xs|xs|bs]; simpl.
  - rewrite non_null_count_dropna.
    destruct (mode Qcompare (dropna xs)) as [m|] eqn:Hm; simpl.
    + split; [|intros _; eexists; reflexivity]. intros _.
      destruct (dropna xs); [discriminate | simpl; lia].
    + apply mode_none in Hm. rewrite Hm. simpl.
      split; [intros [st Hst]; discriminate | lia].
  - rewrite non_null_count_dropna.
    destruct (mode String.compare (dropna xs)) as [m|] eqn:Hm; simpl.
    + split; [|intros _; eexists; reflexivity]. intros _.
      destruct (dropna xs); [discriminate | simpl; lia].
    + apply mode_none in Hm. rewrite Hm. simpl.
      split; [intros [st Hst]; discriminate | lia].
  - rewrite non_null_count_bool.
    destruct (mode Bool.compare bs) as [m|] eqn:Hm; simpl.
    + split; [|intros _; eexists; reflexivity]. intros _.
      destruct bs; [discriminate | simpl; lia].
    + apply mode_none in Hm. rewrite Hm. simpl.
      split; [intros [st Hst]; discriminate | lia].
Qed.

Lemma series_mode0_only_KeyError :
  forall c e, series_mode0 c = Raise e -> e = KeyError.
Proof.
  intros c e H. unfold series_mode0 in H.
  destruct c as [k xs|xs|bs]; simpl in H;
    match type of H with
    | context [mode ?cmp ?l] => destruct (mode cmp l)
    end; simpl in H; congruence.
Qed.

Lemma fillna_non_null :
  forall (A : Type) (v : A) (xs : list (option A)),
    length (dropna xs) <= length (dropna (fillna v xs)).
Proof.
  intros A v xs. induction xs as [|[x|] xs IH]; simpl; lia.
Qed.

Lemma series_fillna_non_null :
  forall stat c, non_null_count c <= non_null_count (series_fillna stat c).
Proof.
  intros stat c. unfold non_null_count.
  destruct stat as [[q|t|b]|], c as [k xs|xs|bs]; simpl; try lia;
    try (rewrite !non_null_count_dropna; apply fillna_non_null).
  destruct (all_missing xs) eqn:Ha; simpl; [|lia].
  apply all_missing_spec in Ha. destruct Ha as [_ Ha].
  rewrite non_null_count_dropna, Ha. simpl. lia.
Qed.

(** A column is listed, present and holds a value. *)
Definition has_value (df : DataFrame) (name : string) : Prop :=
  exists c, lookup name (cols df) = Some c /\ 0 < non_null_count c.

Lemma mode_step_ok_iff :
  forall k col df,
    (exists df', impute_step "mode" k col df = Ok df') <-> has_value df col.
Proof.
  intros k col df. unfold impute_step, has_value, getitem. simpl.
  destruct (lookup col (cols df)) as [c|]; simpl.
  - split.
    + intros [d Hd]. exists c. split; [reflexivity|].
      apply series_mode0_ok_iff.
      destruct (series_mode0 c) as [m|]; simpl in Hd; [|discriminate].
      eexists; reflexivity.
    + intros (c0 & Hc0 & Hpos). injection Hc0 as <-.
      apply series_mode0_ok_iff in Hpos. destruct Hpos as [m Hm].
      rewrite Hm. simpl. eexists. reflexivity.
  - split; [intros [d Hd]; discriminate | intros (c & Hc & _); discriminate].
Qed.

Lemma mode_step_keeps :
  forall k col df df',
    impute_step "mode" k col df = Ok df' ->
    forall name, has_value df' name <-> has_value df name.
Proof.
  intros k col df df' H name. unfold impute_step, getitem in H. simpl in H.
  destruct (lookup col (cols df)) as [c|] eqn:Hc; simpl in H; [|discriminate].
  destruct (series_mode0 c) as [m|] eqn:Hm; simpl in H; [|discriminate].
  injection H as <-. unfold has_value. simpl.
  assert (Hpos : 0 < non_null_count c)
    by (apply series_mode0_ok_iff; eexists; exact Hm).
  destruct (String.eqb_spec name col) as [->|Hne].
  - rewrite (@lookup_replace_same _ _ (series_fillna m c) _ Hc), Hc. split.
    + intros _. exists c. auto.
    + intros _. eexists. split; [reflexivity|].
      pose proof (series_fillna_non_null m c). lia.
  - rewrite (@lookup_replace_other name col _ _ Hne). reflexivity.
Qed.

Lemma mode_step_only_KeyError :
  forall k col df e, impute_step "mode" k col df = Raise e -> e = KeyError.
Proof.
  intros k col df e H. unfold impute_step, getitem in H. simpl in H.
  destruct (lookup col (cols df)) as [c|]; simpl in H; [|congruence].
  destruct (series_mode0 c) as [m|] eqn:Hm; simpl in H; [discriminate|].
  injection H as <-. eapply series_mode0_only_KeyError; eauto.
Qed.

(** X4.  Mode imputation returns exactly when every listed name is a column
    holding at least one non-missing value; otherwise it raises KeyError,
    for an absent column and for a column with no value alike. *)
Theorem mode_imputation_returns_iff :
  forall (df : DataFrame) (columns : option (list string)) (k : nat),
    ((exists df', ret (handle_missing_values df "mode" columns k) = Ok df')
     <-> forall name, In name (resolved_columns df columns) ->
                      has_value df name)
    /\ (forall e, ret (handle_missing_values df "mode" columns k) = Raise e ->
                  e = KeyError).
Proof.
  intros df columns k. rewrite handle_missing_values_unfold. simpl.
  split.
  - rewrite <- (@for_each_ok_iff (impute_step "mode" k) (fun _ => True)
                  has_value
                  (fun col d _ => mode_step_ok_iff k col d)
                  (fun col d d' _ Hb =>
                     conj I (@mode_step_keeps k col d d' Hb))
                  (resolved_columns df columns) df I).
    split.
    + intros [df' H]. apply returning_df_ok in H. eexists. exact H.
    + intros [df' H]. exists df'. rewrite H. reflexivity.
  - intros e H.
    assert (Hr : ret (for_each (impute_step "mode" k)
                        (resolved_columns df columns) df) = Raise e).
    { destruct (ret (for_each (impute_step "mode" k)
                       (resolved_columns df columns) df));
        simpl in H; [discriminate | congruence]. }
    apply for_each_raise in Hr.
    destruct Hr as (done & failing & rest & _ & _ & Hf).
    eapply mode_step_only_KeyError; eauto.
Qed.

Lemma mean_none :
  forall vs, mean vs = None -> vs = [].
Proof. intros [|v vs] H; [reflexivity | discriminate]. Qed.

Lemma median_none :
  forall vs, median vs = None -> vs = [].
Proof.
  intros vs H. unfold median in H.
  destruct (length (sort Qcompare vs)) eqn:Hn.
  - rewrite sort_length in Hn. apply length_zero_iff_nil. exact Hn.
  - destruct (Nat.even (S n)); discriminate.
Qed.

(** A statistic comes out as NaN only for a column with no value. *)
Lemma statistic_none :
  forall strategy c,
    statistic strategy c = Ok None -> non_null_count c = 0.
Proof.
  intros strategy c H. unfold non_null_count.
  unfold statistic, series_mean, series_median, series_mode0 in H.
  destruct c as [k xs|xs|bs]; simpl in *.
  - rewrite non_null_count_dropna.
    destruct (String.eqb strategy "mean") eqn:Hm; simpl in H.
    + destruct (mean (dropna xs)) eqn:Hv; [discriminate|].
      apply mean_none in Hv. rewrite Hv. reflexivity.
    + destruct (String.eqb strategy "median") eqn:Hd; simpl in H.
      * destruct (median (dropna xs)) eqn:Hv; [discriminate|].
        apply median_none in Hv. rewrite Hv. reflexivity.
      * destruct (mode Qcompare (dropna xs)); discriminate.
  - rewrite non_null_count_dropna.
    destruct (String.eqb strategy "mean") eqn:Hm; simpl in H.
    + destruct (dropna xs); [reflexivity | discriminate].
    + destruct (String.eqb strategy "median") eqn:Hd; simpl in H.
      * destruct (dropna xs); [reflexivity | discriminate].
      * destruct (mode String.compare (dropna xs)); discriminate.
  - rewrite non_null_count_bool.
    destruct (String.eqb strategy "mean") eqn:Hm; simpl in H.
    + destruct (mean (map Q_of_bool bs)) eqn:Hv; [discriminate|].
      apply mean_none in Hv. destruct bs; [reflexivity | discriminate].
    + destruct (String.eqb strategy "median") eqn:Hd; simpl in H.
      * destruct (median (map Q_of_bool bs)) eqn:Hv; [discriminate|].
        apply median_none in Hv. destruct bs; [reflexivity | discriminate].
      * destruct (mode Bool.compare bs); discriminate.
Qed.

Lemma fillna_no_missing :
  forall (A : Type) (v : A) (xs : list (option A)),
    Forall (fun b => b = false) (map isnull_cell (fillna v xs)).
Proof.
  intros A v xs. unfold fillna. rewrite !Forall_map.
  apply Forall_forall. intros [x|] _; reflexivity.
Qed.

(** Filled with a value of its own, a column has no missing cell. *)
Lemma statistic_some_fills :
  forall strategy c v,
    statistic strategy c = Ok (Some v) ->
    Forall (fun b => b = false) (isnull (series_fillna (Some v) c)).
Proof.
  intros strategy c v H.
  pose proof (series_fillna_cells strategy c H) as Hcells.
  destruct c as [k xs|xs|bs]; destruct v as [q|t|b]; simpl in *;
    try apply fillna_no_missing;
    try (rewrite Forall_map; apply Forall_forall; intros; reflexivity).
  - exfalso. unfold statistic, series_mean, series_median, series_mode0 in H.
    destruct (String.eqb strategy "mean"); simpl in H;
      [destruct (mean (dropna xs)); discriminate|].
    destruct (String.eqb strategy "median"); simpl in H;
      [destruct (median (dropna xs)); discriminate|].
    destruct (mode Qcompare (dropna xs)); discriminate.
  - exfalso. unfold statistic, series_mean, series_median, series_mode0 in H.
    destruct (String.eqb strategy "mean"); simpl in H;
      [destruct (mean (dropna xs)); discriminate|].
    destruct (String.eqb strategy "median"); simpl in H;
      [destruct (median (dropna xs)); discriminate|].
    destruct (mode Qcompare (dropna xs)); discriminate.
  - exfalso. unfold statistic, series_mean, series_median, series_mode0 in H.
    destruct (String.eqb strategy "mean"); simpl in H;
      [destruct (dropna xs); discriminate|].
    destruct (String.eqb strategy "median"); simpl in H;
      [destruct (dropna xs); discriminate|].
    destruct (mode String.compare (dropna xs)); discriminate.
  - exfalso. unfold statistic, series_mean, series_median, series_mode0 in H.
    destruct (String.eqb strategy "mean"); simpl in H;
      [destruct (dropna xs); discriminate|].
    destruct (String.eqb strategy "median"); simpl in H;
      [destruct (dropna xs); discriminate|].
    destruct (mode String.compare (dropna xs)); discriminate.
Qed.


End ImputationOutcome.

(** ** When encoding fails *)

Section EncodingFailures.

Context {E : Externals}.

Lemma lookup_some_iff :
  forall name l,
    (exists c, lookup name l = Some c) <-> In name (map fst l).
Proof.
  intros name l. induction l as [|[n c0] l IH]; simpl.
  - split; [intros [c Hc]; discriminate | intros []].
  - destruct (String.eqb_spec n name) as [->|Hne].
    + split; [auto | intros _; eexists; reflexivity].
    + rewrite IH. split; [auto | intros [H|H]; [congruence | exact H]].
Qed.

Lemma getitem_ok_iff :
  forall df name,
    (exists c, getitem df name = Ok c) <-> In name (Frame.columns df).
Proof.
  intros df name. unfold getitem, Frame.columns.
  rewrite <- lookup_some_iff.
  destruct (lookup name (cols df)) as [c|]; split; intros [c0 H];
    try discriminate; eexists; reflexivity.
Qed.

Lemma getitem_only_KeyError :
  forall df name e, getitem df name = Raise e -> e = KeyError.
Proof.
  intros df name e H. unfold getitem in H.
  destruct (lookup name (cols df)); congruence.
Qed.

Lemma getitems_ok_iff :
  forall df names,
    (exists data, getitems df names = Ok data)
    <-> forall n, In n names -> In n (Frame.columns df).
Proof.
  intros df names. induction names as [|n names IH]; simpl.
  - split; [intros _ n [] | intros _; eexists; reflexivity].
  - split.
    + intros [data H] m [<-|Hm].
      * apply getitem_ok_iff.
        destruct (getitem df n) as [c|]; simpl in H; [|discriminate].
        eexists; reflexivity.
      * destruct (getitem df n) as [c|]; simpl in H; [|discriminate].
        destruct (getitems df names) as [rest|] eqn:Hr; simpl in H;
          [|discriminate].
        apply (proj1 IH); [eexists; reflexivity | exact Hm].
    + intros H.
      destruct (proj2 (getitem_ok_iff df n) (H n (or_introl eq_refl)))
        as [c Hc].
      destruct (proj2 IH (fun m Hm => H m (or_intror Hm))) as [rest Hr].
      rewrite Hc, Hr. simpl. eexists. reflexivity.
Qed.

Lemma getitems_only_KeyError :
  forall df names e, getitems df names = Raise e -> e = KeyError.
Proof.
  intros df names e. induction names as [|n names IH]; simpl; intros H.
  - discriminate.
  - destruct (getitem df n) as [c|] eqn:Hc; simpl in H.
    + destruct (getitems df names) as [rest|]; simpl in H;
        [discriminate | apply IH; congruence].
    + injection H as <-. eapply getitem_only_KeyError; eauto.
Qed.


Lemma replace_names :
  forall name c c' l,
    lookup name l = Some c -> map fst (replace name c' l) = map fst l.
Proof.
  intros name c c' l. induction l as [|[n c0] l IH]; simpl; [discriminate|].
  destruct (String.eqb n name); simpl; [reflexivity|].
  intros H. rewrite IH by exact H. reflexivity.
Qed.

Lemma label_step_ok_iff :
  forall col df,
    wf df ->
    ((exists df', label_step col df = Ok df') <-> In col (Frame.columns df)).
Proof.
  intros col df Hwf. rewrite <- getitem_ok_iff. unfold label_step. split.
  - intros [df' H].
    destruct (getitem df col) as [c|]; simpl in H; [|discriminate].
    eexists; reflexivity.
  - intros [c Hc]. rewrite Hc. simpl. unfold setitem_array.
    rewrite label_fit_transform_len, (getitem_len _ Hwf Hc), Nat.eqb_refl.
    eexists. reflexivity.
Qed.

Lemma label_step_columns :
  forall col df df',
    wf df -> label_step col df = Ok df' ->
    wf df'
    /\ forall name, In name (Frame.columns df') <-> In name (Frame.columns df).
Proof.
  intros col df df' Hwf H.
  split; [apply (label_step_keeps _ Hwf H)|].
  unfold label_step, getitem in H.
  destruct (lookup col (cols df)) as [c|] eqn:Hc; simpl in H; [|discriminate].
  apply setitem_array_ok in H. destruct H as [-> _].
  intros name. unfold Frame.columns. simpl.
  rewrite (@replace_names col c _ _ Hc). reflexivity.
Qed.

Lemma label_step_only_KeyError :
  forall col df e,
    wf df -> label_step col df = Raise e -> e = KeyError.
Proof.
  intros col df e Hwf H.
  destruct (getitem df col) as [c|] eqn:Hc.
  - assert (Hin : In col (Frame.columns df))
      by (apply getitem_ok_iff; eexists; exact Hc).
    apply (label_step_ok_iff col Hwf) in Hin.
    destruct Hin as [d Hd]. congruence.
  - unfold label_step in H. rewrite Hc in H. simpl in H.
    injection H as <-. eapply getitem_only_KeyError; eauto.
Qed.

(** X7.  Label encoding of a well-formed dataset returns exactly when every
    listed name is a column, and raises KeyError otherwise. *)
Theorem label_encoding_returns_iff_columns_exist :
  forall (df : DataFrame) (names : list string),
    wf df ->
    ((exists df', ret (encode_categorical df names "label") = Ok df')
     <-> forall n, In n names -> In n (Frame.columns df))
    /\ (forall e, ret (encode_categorical df names "label") = Raise e ->
                  e = KeyError).
Proof.
  intros df names Hwf. unfold encode_categorical. simpl. split.
  - rewrite <- (@for_each_ok_iff label_step wf
                  (fun d n => In n (Frame.columns d))
                  label_step_ok_iff label_step_columns names df Hwf).
    split.
    + intros [df' H]. apply returning_df_ok in H. eexists. exact H.
    + intros [df' H]. exists df'. rewrite H. reflexivity.
  - intros e H.
    assert (Hr : ret (for_each label_step names df) = Raise e).
    { destruct (ret (for_each label_step names df));
        simpl in H; [discriminate | congruence]. }
    pose proof (loop_keeps label_step label_step_keeps names Hwf) as [Hfin _].
    apply for_each_raise in Hr.
    destruct Hr as (done & failing & rest & _ & _ & Hf).
    apply (label_step_only_KeyError _ Hfin Hf).
Qed.

End EncodingFailures.

(** ** The quality report *)

Section QualityReport.

Context {E : Externals}.

Lemma count_true_split :
  forall (m : list bool),
    count_true (map negb m) + count_true m = length m.
Proof.
  intros m. unfold count_true.
  induction m as [|[|] m IH]; simpl; lia.
Qed.

Lemma insert_uniq_length :
  forall (A : Type) (cmp : A -> A -> comparison) x l,
    length (insert_uniq cmp x l) <= S (length l).
Proof.
  intros A cmp x l. induction l as [|y l IH]; simpl; [lia|].
  destruct (cmp x y); simpl; lia.
Qed.

Lemma unique_length_le :
  forall (A : Type) (cmp : A -> A -> comparison) (l : list A),
    length (unique cmp l) <= length l.
Proof.
  intros A cmp l. induction l as [|x l IH]; simpl; [lia|].
  pose proof (insert_uniq_length cmp x (unique cmp l)). lia.
Qed.

Lemma nunique_le_non_null :
  forall c, nunique c <= non_null_count c.
Proof.
  intros [k xs|xs|bs]; unfold nunique, non_null_count; simpl.
  - rewrite non_null_count_dropna. apply unique_length_le.
  - rewrite non_null_count_dropna. apply unique_length_le.
  - rewrite non_null_count_bool. apply unique_length_le.
Qed.

Lemma report_rows :
  forall df,
    exists dups,
      duplicated df None = Ok dups
      /\ data_quality_report df
         = Ok (map (fun nc =>
                      mkRow (fst nc) (dtype_of (snd nc))
                            (count_true (map negb (isnull (snd nc))))
                            (count_true (isnull (snd nc)))
                            (float_mul
                               (true_divide (count_true (isnull (snd nc)))
                                            (nrows df)) 100)
                            (nunique (snd nc))
                            (count_true dups))
                   (cols df)).
Proof.
  intros df. unfold data_quality_report, duplicated.
  destruct (empty df); eexists; split; reflexivity.
Qed.

(** X8.  The quality report never fails.  On a well-formed dataset it has one
    record per column, in column order; in each record the non-null and
    null counts add up to the row count and the count of distinct values
    is at most the non-null count. *)
Theorem report_counts_add_up :
  forall (df : DataFrame),
    wf df ->
    exists rows,
      data_quality_report df = Ok rows
      /\ map Column rows = Frame.columns df
      /\ Forall (fun r => NonNullCount r + NullCount r = nrows df
                          /\ UniqueValues r <= NonNullCount r) rows.
Proof.
  intros df Hwf. destruct (report_rows df) as (dups & _ & Hr).
  eexists. split; [exact Hr|]. split.
  - rewrite map_map. reflexivity.
  - rewrite Forall_map. unfold wf in Hwf.
    eapply Forall_impl; [|exact Hwf].
    intros [n c] Hlen. simpl in *. split.
    + rewrite count_true_split, isnull_length. exact Hlen.
    + apply nunique_le_non_null.
Qed.

Lemma of_nat_nonneg : forall n, (0 <= of_nat n)%Q.
Proof.
  intros n. unfold of_nat, Qle. simpl. lia.
Qed.

Lemma of_nat_pos : forall n, 0 < n -> (0 < of_nat n)%Q.
Proof.
  intros n Hn. unfold of_nat, Qlt. simpl. lia.
Qed.

Lemma of_nat_le : forall a n, a <= n -> (of_nat a <= of_nat n)%Q.
Proof.
  intros a n H. unfold of_nat, Qle. simpl. lia.
Qed.

Lemma of_nat_zero : forall a, (of_nat a == 0)%Q <-> a = 0.
Proof.
  intros a. unfold of_nat, Qeq. simpl. lia.
Qed.

(** The percentage of [a] out of [n] rows, [a] at most [n], [n] not 0. *)
Lemma percentage_range :
  forall a n,
    0 < n -> a <= n ->
    exists q,
      float_mul (true_divide a n) 100 = Finite q
      /\ (0 <= q)%Q /\ (q <= 100)%Q /\ ((q == 0)%Q <-> a = 0).
Proof.
  intros a n Hn Ha. destruct n as [|n]; [lia|].
  simpl. eexists. split; [reflexivity|].
  pose proof (of_nat_pos Hn) as Hpos.
  pose proof (of_nat_nonneg a) as Hnn.
  pose proof (of_nat_le Ha) as Hle.
  assert (Hfrac0 : (0 <= of_nat a / of_nat (S n))%Q).
  { apply Qle_shift_div_l; [exact Hpos|]. rewrite Qmult_0_l. exact Hnn. }
  assert (Hfrac1 : (of_nat a / of_nat (S n) <= 1)%Q).
  { apply Qle_shift_div_r; [exact Hpos|]. rewrite Qmult_1_l. exact Hle. }
  split; [|split; [|split]].
  - apply Qmult_le_0_compat; [exact Hfrac0 | discriminate].
  - setoid_replace (100 : Q) with (1 * 100)%Q at 2 by reflexivity.
    apply Qmult_le_compat_r; [exact Hfrac1 | discriminate].
  - intros H. apply of_nat_zero.
    apply Qmult_integral in H. destruct H as [H|H]; [|discriminate H].
    unfold Qdiv in H. apply Qmult_integral in H. destruct H as [H|H];
      [exact H|].
    exfalso. apply (Qlt_irrefl 0).
    apply Qlt_le_trans with (/ of_nat (S n))%Q.
    + apply Qinv_lt_0_compat. exact Hpos.
    + rewrite H. apply Qle_refl.
  - intros ->. unfold of_nat at 1. simpl. reflexivity.
Qed.

(** X9.  On a well-formed dataset with at least one row, every null
    percentage of the report is a number from 0 to 100, and it is 0
    exactly for the columns with no missing cell. *)
Theorem report_null_percentage_range :
  forall (df : DataFrame),
    wf df ->
    0 < nrows df ->
    exists rows,
      data_quality_report df = Ok rows
      /\ Forall (fun r => exists q,
                     NullPercentage r = Finite q
                     /\ (0 <= q)%Q /\ (q <= 100)%Q
                     /\ ((q == 0)%Q <-> NullCount r = 0)) rows.
Proof.
  intros df Hwf Hn. destruct (report_rows df) as (dups & _ & Hr).
  eexists. split; [exact Hr|].
  rewrite Forall_map. unfold wf in Hwf.
  eapply Forall_impl; [|exact Hwf].
  intros [n c] Hlen. simpl in *.
  apply percentage_range; [exact Hn|].
  pose proof (count_true_split (isnull c)) as Hs.
  rewrite isnull_length in Hs. lia.
Qed.

Lemma count_true_kept :
  forall (A : Type) (m : list bool) (xs : list A),
    length m = length xs ->
    count_true m + length (mask_filter (map negb m) xs) = length xs.
Proof.
  intros A m. unfold count_true.
  induction m as [|b m IH]; intros xs H; destruct xs as [|x xs];
    simpl in *; try discriminate; [reflexivity|].
  injection H as H. specialize (IH xs H). destruct b; simpl; lia.
Qed.

(** X10.  The duplicate count of the quality report is the number of rows
    [remove_duplicates] takes away. *)
Theorem report_duplicates_are_the_rows_removed :
  forall (df : DataFrame),
    wf df ->
    exists rows d,
      data_quality_report df = Ok rows
      /\ remove_duplicates df None = Ok d
      /\ Forall (fun r => DuplicateRows r + nrows d = nrows df) rows.
Proof.
  intros df Hwf. destruct (report_rows df) as (dups & Hd & Hr).
  unfold remove_duplicates, drop_duplicates.
  unfold duplicated in Hd. destruct (empty df) eqn:Hempty.
  - injection Hd as <-. eexists. exists df.
    split; [exact Hr|]. split; [reflexivity|].
    rewrite Forall_map. apply Forall_forall. intros nc _. reflexivity.
  - unfold duplicated. rewrite Hempty. simpl in *. injection Hd as <-.
    eexists. eexists. split; [exact Hr|]. split; [reflexivity|].
    rewrite Forall_map. apply Forall_forall. intros nc _. simpl.
    rewrite count_true_kept; [apply length_seq|].
    rewrite duplicated_from_length, rows_of_length, length_seq.
    reflexivity.
Qed.

Lemma duplicated_all_false_count :
  forall (A : Type) (l : list A),
    count_true (map (fun _ => false) l) = 0.
Proof.
  intros A l. unfold count_true. induction l; simpl; auto.
Qed.

(** X11.  After [remove_duplicates] over all columns, the quality report
    counts no duplicate row. *)
Theorem report_after_remove_duplicates :
  forall (df d : DataFrame),
    wf df ->
    remove_duplicates df None = Ok d ->
    exists rows,
      data_quality_report d = Ok rows
      /\ Forall (fun r => DuplicateRows r = 0) rows.
Proof.
  intros df d Hwf H. destruct (report_rows d) as (dups & Hd & Hr).
  eexists. split; [exact Hr|].
  assert (Hzero : count_true dups = 0).
  { unfold duplicated in Hd. destruct (empty d) eqn:Hed.
    - injection Hd as <-. reflexivity.
    - injection Hd as <-.
      unfold remove_duplicates, drop_duplicates, duplicated in H.
      destruct (empty df) eqn:Hempty.
      + injection H as <-. congruence.
      + simpl in H. injection H as <-. simpl.
        replace (map snd
                   (map (fun nc => (fst nc, filter_col
                      (map negb (duplicated_from []
                         (rows_of (map snd (cols df)) (nrows df)))) (snd nc)))
                      (cols df)))
          with (map (filter_col
                       (map negb (duplicated_from []
                          (rows_of (map snd (cols df)) (nrows df)))))
                    (map snd (cols df)))
          by (rewrite !map_map; reflexivity).
        fold (kept (map negb (duplicated_from []
                      (rows_of (map snd (cols df)) (nrows df)))) (nrows df)).
        rewrite (@rows_of_filter _ (nrows df) (map snd (cols df))).
        * rewrite duplicated_from_kept by auto.
          apply duplicated_all_false_count.
        * rewrite length_map, duplicated_from_length. apply rows_of_length.
        * unfold wf in Hwf. rewrite Forall_map. exact Hwf. }
  rewrite Forall_map. apply Forall_forall. intros nc _. exact Hzero.
Qed.

End QualityReport.

(** ** Outlier removal and the quartiles *)

Section OutlierRemoval.

Context {E : Externals}.

Lemma mask_filter_self :
  forall (A : Type) (p : A -> bool) (xs : list A),
    mask_filter (map p xs) xs = filter p xs.
Proof.
  intros A p xs. induction xs as [|x xs IH]; simpl; [reflexivity|].
  destruct (p x); rewrite IH; reflexivity.
Qed.

(** A cell is flagged by the fences of the column [xs]. *)
Definition flagged (xs : list (option Q)) (x : option Q) : bool :=
  lt_cell x (lower_fence xs) || gt_cell x (upper_fence xs).

Lemma filter_keeps_missing :
  forall (xs : list (option Q)) (p : option Q -> bool),
    p None = true ->
    length (filter (@isnull_cell Q) (filter p xs))
    = length (filter (@isnull_cell Q) xs).
Proof.
  intros xs p Hp. induction xs as [|[v|] xs IH]; simpl; [reflexivity| |].
  - destruct (p (Some v)); simpl; exact IH.
  - rewrite Hp. simpl. rewrite IH. reflexivity.
Qed.


(** X13.  The fences are what float64 arithmetic gives, not the exact
    ones.  On 0, 0.1, 0.1, 0.2 the exact quartiles 0.075 and 0.125 put
    the fences at 0 and 0.2, on the least and the greatest value, and no
    row would be flagged; in float64 the first quartile is one unit in
    the last place above 0.075, the lower fence comes out as 2^-55, above
    0, the upper fence below the float64 of 0.2, and the rows of 0 and
    0.2 are flagged. *)
Theorem fences_follow_float64_rounding :
  getitem Samples.tenths "x" = Ok (Numeric Float64 Samples.tenth_cells)
  /\ ((3 # 40) - (3 # 2) * ((1 # 8) - (3 # 40)) == 0)%Q
  /\ ((1 # 8) + (3 # 2) * ((1 # 8) - (3 # 40)) == 2 # 10)%Q
  /\ F64.ltb (F64.of_Q (3 # 40)) (first_quartile Samples.tenth_cells) = true
  /\ third_quartile Samples.tenth_cells = F64.of_Q (1 # 8)
  /\ lower_fence Samples.tenth_cells = F64.of_Q (1 # 2 ^ 55)
  /\ F64.ltb (upper_fence Samples.tenth_cells) (F64.of_Q (2 # 10)) = true
  /\ detect_outliers_iqr Samples.tenths "x"
     = Ok [true; false; false; true].
Proof. repeat split; vm_compute; reflexivity. Qed.

(** X14.  [remove_outliers] can take every row away.  On the two values
    -1e308 and 1e308 the difference of the neighbours overflows, the
    first quartile comes out as +inf and the third as -inf, so do the
    lower and the upper fence, both rows are flagged and the dataset
    returned has no row. *)
Theorem remove_outliers_can_remove_every_row :
  wf Samples.extremes
  /\ nrows Samples.extremes = 2
  /\ getitem Samples.extremes "x" = Ok (Numeric Float64 Samples.extreme_cells)
  /\ first_quartile Samples.extreme_cells = F64.inf
  /\ third_quartile Samples.extreme_cells = F64.neg_inf
  /\ lower_fence Samples.extreme_cells = F64.inf
  /\ upper_fence Samples.extreme_cells = F64.neg_inf
  /\ detect_outliers_iqr Samples.extremes "x" = Ok [true; true]
  /\ remove_outliers Samples.extremes "x"
     = Ok (mkDF 0 [("x"%string, Numeric Float64 [])]).
Proof.
  split; [repeat constructor|]. repeat split; vm_compute; reflexivity.
Qed.

End OutlierRemoval.

(** ** The indicators of one column *)

Section Indicators.

Context {E : Externals}.

Lemma NoDup_tl :
  forall (A : Type) (l : list A), NoDup l -> NoDup (tl l).
Proof.
  intros A l H. destruct H; [constructor | assumption].
Qed.

Lemma dummies_1d_nth :
  forall name xs j n bs,
    nth_error (dummies_1d name (Object xs)) j = Some (n, Boolean bs) ->
    exists l,
      nth_error (tl (levels xs)) j = Some l
      /\ bs = map (fun x => match x with
                            | Some v => String.eqb v l
                            | None => false
                            end) xs.
Proof.
  intros name xs j n bs H. unfold dummies_1d in H. fold (levels xs) in H.
  rewrite nth_error_map in H.
  destruct (nth_error (tl (levels xs)) j) as [l|]; simpl in H; [|discriminate].
  exists l. split; [reflexivity|]. unfold indicator in H. congruence.
Qed.

(** X15.  The indicators of a text column exclude one another: in a row at
    most one of them is true, and none is true where the cell is
    missing. *)
Theorem one_hot_indicators_are_exclusive :
  forall (name : string) (xs : list (option string)),
    (forall i j1 j2 n1 bs1 n2 bs2,
        nth_error (dummies_1d name (Object xs)) j1 = Some (n1, Boolean bs1) ->
        nth_error (dummies_1d name (Object xs)) j2 = Some (n2, Boolean bs2) ->
        nth_error bs1 i = Some true ->
        nth_error bs2 i = Some true ->
        j1 = j2)
    /\ (forall i n bs,
          nth_error xs i = Some None ->
          In (n, Boolean bs) (dummies_1d name (Object xs)) ->
          nth_error bs i = Some false).
Proof.
  intros name xs. split.
  - intros i j1 j2 n1 bs1 n2 bs2 H1 H2 Hb1 Hb2.
    destruct (dummies_1d_nth _ _ _ H1) as (l1 & Hl1 & ->).
    destruct (dummies_1d_nth _ _ _ H2) as (l2 & Hl2 & ->).
    rewrite nth_error_map in Hb1, Hb2.
    destruct (nth_error xs i) as [[v|]|]; simpl in *; try discriminate.
    injection Hb1 as Hb1. injection Hb2 as Hb2.
    apply String.eqb_eq in Hb1, Hb2. subst l1 l2.
    assert (Hnd : NoDup (tl (levels xs)))
      by (apply NoDup_tl, unique_string_NoDup).
    rewrite NoDup_nth_error in Hnd. apply Hnd.
    + apply nth_error_Some. congruence.
    + congruence.
  - intros i n bs Hi Hin. apply In_nth_error in Hin. destruct Hin as [j Hj].
    destruct (dummies_1d_nth _ _ _ Hj) as (l & _ & ->).
    rewrite nth_error_map, Hi. reflexivity.
Qed.

End Indicators.

(** ** Type conversion *)

Section TypeConversion.

Context {E : Externals}.

Lemma fold_left_invariant :
  forall (P : DataFrame -> Prop) (step : DataFrame -> string -> DataFrame)
         (Q : string -> Prop),
    (forall d col, Q col -> P d -> P (step d col)) ->
    forall names df,
      Forall Q names -> P df -> P (fold_left step names df).
Proof.
  intros P step Q Hstep names. induction names as [|col names IH];
    intros df HQ HP; simpl; [exact HP|].
  inversion HQ; subst. apply IH; [assumption|]. apply Hstep; assumption.
Qed.

Lemma setitem_columns :
  forall df col c c',
    lookup col (cols df) = Some c ->
    Frame.columns (setitem df col c') = Frame.columns df.
Proof.
  intros df col c c' H. unfold Frame.columns, setitem. simpl.
  apply (@replace_names col c c' _ H).
Qed.

Lemma getitem_lookup :
  forall df col c, getitem df col = Ok c <-> lookup col (cols df) = Some c.
Proof.
  intros df col c. unfold getitem.
  destruct (lookup col (cols df)); split; intros H; congruence.
Qed.

Lemma try_datetime_columns :
  forall df col, Frame.columns (try_datetime df col) = Frame.columns df.
Proof.
  intros df col. unfold try_datetime.
  destruct (getitem df col) as [c|] eqn:Hc; simpl; [|reflexivity].
  apply getitem_lookup in Hc.
  destruct (series_to_datetime c); simpl; [|reflexivity].
  eapply setitem_columns; eauto.
Qed.

Lemma downcast_step_columns :
  forall df col, Frame.columns (downcast_step df col) = Frame.columns df.
Proof.
  intros df col. unfold downcast_step.
  destruct (getitem df col) as [c|] eqn:Hc; [|reflexivity].
  apply getitem_lookup in Hc. eapply setitem_columns; eauto.
Qed.

(** A column that the conversions cannot change. *)
Definition inert (c : column) : Prop :=
  series_to_numeric c = c
  /\ forall d, series_to_datetime c = Ok d -> d = c.

Lemma try_datetime_inert :
  forall name c df col,
    inert c ->
    lookup name (cols df) = Some c ->
    lookup name (cols (try_datetime df col)) = Some c.
Proof.
  intros name c df col [_ Hin] H. unfold try_datetime.
  destruct (String.eqb_spec name col) as [<-|Hne].
  - rewrite (proj2 (getitem_lookup df name c) H). simpl.
    destruct (series_to_datetime c) as [d|] eqn:Hd; simpl; [|exact H].
    rewrite (Hin d eq_refl). eapply lookup_replace_same; eauto.
  - destruct (getitem df col) as [c0|]; simpl; [|exact H].
    destruct (series_to_datetime c0); simpl; [|exact H].
    rewrite lookup_replace_other by exact Hne. exact H.
Qed.

Lemma downcast_step_inert :
  forall name c df col,
    inert c ->
    lookup name (cols df) = Some c ->
    lookup name (cols (downcast_step df col)) = Some c.
Proof.
  intros name c df col [Hnum _] H. unfold downcast_step.
  destruct (String.eqb_spec name col) as [<-|Hne].
  - rewrite (proj2 (getitem_lookup df name c) H). simpl.
    rewrite Hnum. eapply lookup_replace_same; eauto.
  - destruct (getitem df col) as [c0|]; simpl; [|exact H].
    rewrite lookup_replace_other by exact Hne. exact H.
Qed.

Lemma convert_dtypes_inert :
  forall name c df,
    inert c ->
    lookup name (cols df) = Some c ->
    lookup name (cols (final (convert_dtypes df))) = Some c.
Proof.
  intros name c df Hin H. unfold convert_dtypes. simpl.
  apply (@fold_left_invariant
           (fun d => lookup name (cols d) = Some c) downcast_step
           (fun _ => True)).
  - intros d col _ Hd. apply downcast_step_inert; assumption.
  - apply Forall_forall. auto.
  - apply (@fold_left_invariant
             (fun d => lookup name (cols d) = Some c) try_datetime
             (fun _ => True)).
    + intros d col _ Hd. apply try_datetime_inert; assumption.
    + apply Forall_forall. auto.
    + exact H.
Qed.

(** X16.  [convert_dtypes] never raises and returns the caller's dataset,
    converted in place, with the same columns in the same order.  A
    boolean column is as it was, and so is a text column that
    [to_datetime] refuses: the failure is swallowed. *)
Theorem convert_dtypes_keeps_what_it_cannot_convert :
  forall (df : DataFrame),
    ret (convert_dtypes df) = Ok (final (convert_dtypes df))
    /\ Frame.columns (final (convert_dtypes df)) = Frame.columns df
    /\ (forall name bs,
          lookup name (cols df) = Some (Boolean bs) ->
          lookup name (cols (final (convert_dtypes df))) = Some (Boolean bs))
    /\ (forall name xs e,
          lookup name (cols df) = Some (Object xs) ->
          to_datetime xs = Raise e ->
          lookup name (cols (final (convert_dtypes df))) = Some (Object xs)).
Proof.
  intros df. split; [reflexivity|]. split; [|split].
  - unfold convert_dtypes. simpl.
    apply (@fold_left_invariant
             (fun d => Frame.columns d = Frame.columns df) downcast_step
             (fun _ => True)).
    + intros d col _ Hd. rewrite downcast_step_columns. exact Hd.
    + apply Forall_forall. auto.
    + apply (@fold_left_invariant
               (fun d => Frame.columns d = Frame.columns df) try_datetime
               (fun _ => True)).
      * intros d col _ Hd. rewrite try_datetime_columns. exact Hd.
      * apply Forall_forall. auto.
      * reflexivity.
  - intros name bs H. apply convert_dtypes_inert; [|exact H].
    split; [reflexivity | intros d Hd; discriminate].
  - intros name xs e H He. apply convert_dtypes_inert; [|exact H].
    split; [reflexivity|]. intros d Hd. simpl in Hd. rewrite He in Hd.
    discriminate.
Qed.

Lemma try_datetime_other :
  forall name df col,
    name <> col ->
    lookup name (cols (try_datetime df col)) = lookup name (cols df).
Proof.
  intros name df col Hne. unfold try_datetime.
  destruct (getitem df col) as [c0|]; simpl; [|reflexivity].
  destruct (series_to_datetime c0); simpl; [|reflexivity].
  apply lookup_replace_other. exact Hne.
Qed.

Lemma downcast_step_other :
  forall name df col,
    name <> col ->
    lookup name (cols (downcast_step df col)) = lookup name (cols df).
Proof.
  intros name df col Hne. unfold downcast_step.
  destruct (getitem df col) as [c0|]; simpl; [|reflexivity].
  apply lookup_replace_other. exact Hne.
Qed.

(** A fold whose step at [name] turns the column [c] into [c'] and
    whose other steps leave [name] alone. *)
Lemma fold_left_rewrites_once :
  forall (step : DataFrame -> string -> DataFrame) (name : string)
         (c c' : column),
    (forall d, lookup name (cols d) = Some c ->
               lookup name (cols (step d name)) = Some c') ->
    (forall d col, name <> col ->
                   lookup name (cols (step d col)) = lookup name (cols d)) ->
    forall names df,
      NoDup names -> In name names ->
      lookup name (cols df) = Some c ->
      lookup name (cols (fold_left step names df)) = Some c'.
Proof.
  intros step name c c' Hat Hother names.
  induction names as [|col names IH]; intros df Hnd Hin Hc; [destruct Hin|].
  inversion Hnd as [|? ? Hnotin Hnd']; subst. simpl.
  destruct (String.eqb_spec name col) as [<-|Hne].
  - apply (@fold_left_invariant
             (fun d => lookup name (cols d) = Some c') step
             (fun col => name <> col)).
    + intros d col Hcol Hd. rewrite Hother by exact Hcol. exact Hd.
    + apply Forall_forall. intros col Hcol ->. contradiction.
    + apply Hat. exact Hc.
  - destruct Hin as [Heq|Hin]; [congruence|].
    apply IH; [exact Hnd' | exact Hin|].
    rewrite Hother by exact Hne. exact Hc.
Qed.

Lemma fold_left_skips :
  forall (step : DataFrame -> string -> DataFrame) (name : string),
    (forall d col, name <> col ->
                   lookup name (cols (step d col)) = lookup name (cols d)) ->
    forall names df,
      ~ In name names ->
      lookup name (cols (fold_left step names df)) = lookup name (cols df).
Proof.
  intros step name Hother names.
  induction names as [|col names IH]; intros df Hn; simpl; [reflexivity|].
  rewrite IH by (intros H; apply Hn; right; exact H).
  apply Hother. intros ->. apply Hn. left. reflexivity.
Qed.

Lemma NoDup_lookup :
  forall l name c,
    NoDup (map fst l) -> In (name, c) l -> lookup name l = Some c.
Proof.
  induction l as [|[n c0] l IH]; intros name c Hnd Hin; [destruct Hin|].
  simpl in *. inversion Hnd as [|? ? Hnotin Hnd']; subst.
  destruct Hin as [Heq|Hin].
  - injection Heq as -> ->. rewrite String.eqb_refl. reflexivity.
  - destruct (String.eqb_spec n name) as [->|Hne].
    + exfalso. apply Hnotin. apply in_map_iff. exists (name, c). auto.
    + apply IH; assumption.
Qed.

Lemma select_dtypes_NoDup :
  forall keep df,
    NoDup (Frame.columns df) -> NoDup (select_dtypes keep df).
Proof.
  intros keep df. unfold select_dtypes, Frame.columns.
  induction (cols df) as [|[n c] l IH]; intros Hnd; simpl; [constructor|].
  inversion Hnd as [|? ? Hnotin Hnd']; subst.
  destruct (keep (dtype_of c)); simpl; [|apply IH; exact Hnd'].
  constructor; [|apply IH; exact Hnd'].
  intros Hin. apply Hnotin. apply in_map_iff in Hin.
  destruct Hin as (nc & Hfst & Hf). apply filter_In in Hf.
  apply in_map_iff. exists nc. tauto.
Qed.

Lemma select_dtypes_In :
  forall keep df name,
    NoDup (Frame.columns df) ->
    (In name (select_dtypes keep df)
     <-> exists c, lookup name (cols df) = Some c
                   /\ keep (dtype_of c) = true).
Proof.
  intros keep df name Hnd. unfold select_dtypes. rewrite in_map_iff. split.
  - intros ([n c] & Hn & Hf). simpl in Hn. subst n.
    apply filter_In in Hf. destruct Hf as [Hin Hk]. exists c.
    split; [apply NoDup_lookup; assumption | exact Hk].
  - intros (c & Hc & Hk). exists (name, c). split; [reflexivity|].
    apply filter_In. split; [apply lookup_In_pair; exact Hc | exact Hk].
Qed.

(** X17.  With distinct column names, [convert_dtypes] turns a text column
    that [to_datetime] accepts into the datetime column it gives, and a
    float column into what [to_numeric] gives for it. *)
Theorem convert_dtypes_converts_text_and_floats :
  forall (df : DataFrame),
    NoDup (Frame.columns df) ->
    (forall name xs ys,
        lookup name (cols df) = Some (Object xs) ->
        to_datetime xs = Ok ys ->
        lookup name (cols (final (convert_dtypes df)))
        = Some (Numeric Datetime64 ys))
    /\ (forall name xs,
          lookup name (cols df) = Some (Numeric Float64 xs) ->
          lookup name (cols (final (convert_dtypes df)))
          = Some (Numeric Float64 (to_numeric_downcast xs))).
Proof.
  intros df Hnd.
  set (df1 := fold_left try_datetime (select_dtypes is_object df) df).
  assert (Hcols1 : Frame.columns df1 = Frame.columns df).
  { unfold df1.
    apply (@fold_left_invariant
             (fun d => Frame.columns d = Frame.columns df) try_datetime
             (fun _ => True)).
    - intros d col _ Hd. rewrite try_datetime_columns. exact Hd.
    - apply Forall_forall. auto.
    - reflexivity. }
  assert (Hnd1 : NoDup (Frame.columns df1)) by (rewrite Hcols1; exact Hnd).
  split.
  - intros name xs ys Hc Hy.
    assert (H1 : lookup name (cols df1) = Some (Numeric Datetime64 ys)).
    { unfold df1.
      apply (@fold_left_rewrites_once try_datetime name (Object xs)
               (Numeric Datetime64 ys)).
      - intros d Hd. unfold try_datetime.
        rewrite (proj2 (getitem_lookup d name _) Hd). simpl. rewrite Hy.
        simpl. eapply lookup_replace_same; eauto.
      - intros d col Hne. apply try_datetime_other. exact Hne.
      - apply select_dtypes_NoDup. exact Hnd.
      - apply (@select_dtypes_In is_object df name Hnd).
        exists (Object xs). auto.
      - exact Hc. }
    unfold convert_dtypes. simpl. fold df1.
    rewrite (@fold_left_skips downcast_step name); [exact H1| |].
    + intros d col Hne. apply downcast_step_other. exact Hne.
    + intros Hin. apply (@select_dtypes_In is_int_or_float df1 name Hnd1) in Hin.
      destruct Hin as (c & Hc1 & Hk). rewrite H1 in Hc1.
      injection Hc1 as <-. discriminate.
  - intros name xs Hc.
    assert (H1 : lookup name (cols df1) = Some (Numeric Float64 xs)).
    { unfold df1.
      rewrite (@fold_left_skips try_datetime name); [exact Hc| |].
      - intros d col Hne. apply try_datetime_other. exact Hne.
      - intros Hin. apply (@select_dtypes_In is_object df name Hnd) in Hin.
        destruct Hin as (c & Hc1 & Hk). rewrite Hc in Hc1.
        injection Hc1 as <-. discriminate. }
    unfold convert_dtypes. simpl. fold df1.
    apply (@fold_left_rewrites_once downcast_step name (Numeric Float64 xs)
             (Numeric Float64 (to_numeric_downcast xs))).
    + intros d Hd. unfold downcast_step.
      rewrite (proj2 (getitem_lookup d name _) Hd).
      simpl. eapply lookup_replace_same; eauto.
    + intros d col Hne. apply downcast_step_other. exact Hne.
    + apply select_dtypes_NoDup. exact Hnd1.
    + apply (@select_dtypes_In is_int_or_float df1 name Hnd1).
      exists (Numeric Float64 xs). auto.
    + exact H1.
Qed.

End TypeConversion.

(* ================================================================== *)
(** * [import_data.py]: memory optimisation *)

(** [pd.to_numeric(s, downcast='unsigned')], taken as given: on a
    numeric series it returns a numeric series over the same index. *)
Class Downcast : Type := {
  to_numeric_unsigned : column -> result column;
  to_numeric_unsigned_float :
    forall xs, exists ys,
      to_numeric_unsigned (Numeric Float64 xs) = Ok (Numeric Float64 ys)
      /\ length ys = length xs
}.

Module ImportData.

Section Wrappers.

Context {D : Downcast}.

(** The body of the loop, line 212. *)
Definition unsigned_step (col : string) (df : DataFrame) : result DataFrame :=
  c <- getitem df col ;;
  c' <- to_numeric_unsigned c ;;
  Ok (setitem df col c').

(** [optimize_memory(df)], lines 201-213. *)
Definition optimize_memory (df : DataFrame) : outcome DataFrame :=
  returning_df
    (for_each unsigned_step (select_dtypes is_int_or_float df) df).

End Wrappers.

End ImportData.
Import ImportData.

Section OptimizeMemory.

Context {D : Downcast}.

Lemma unsigned_step_rewrites :
  forall col df df',
    unsigned_step col df = Ok df' ->
    exists c c',
      lookup col (cols df) = Some c
      /\ to_numeric_unsigned c = Ok c'
      /\ df' = setitem df col c'.
Proof.
  intros col df df' H. unfold unsigned_step, getitem in H.
  destruct (lookup col (cols df)) as [c|]; simpl in H; [|discriminate].
  destruct (to_numeric_unsigned c) as [c'|] eqn:Hc; simpl in H;
    [|discriminate].
  injection H as <-. exists c, c'. auto.
Qed.

(** Over distinct names of float columns the loop runs to its end and
    keeps the frame well formed, with its columns. *)
Lemma unsigned_loop_runs :
  forall names df,
    NoDup names ->
    (forall n, In n names ->
               exists xs, lookup n (cols df) = Some (Numeric Float64 xs)) ->
    exists df',
      for_each unsigned_step names df = mkOutcome df' (Ok tt)
      /\ Frame.columns df' = Frame.columns df
      /\ (wf df -> wf df' /\ nrows df' = nrows df).
Proof.
  induction names as [|col names IH]; intros df Hnd Hfloat.
  - exists df. simpl. auto.
  - inversion Hnd as [|? ? Hnotin Hnd']; subst.
    destruct (Hfloat col (or_introl eq_refl)) as [xs Hxs].
    destruct (to_numeric_unsigned_float xs) as (ys & Hys & Hlen).
    assert (Hstep : unsigned_step col df
                    = Ok (setitem df col (Numeric Float64 ys))).
    { unfold unsigned_step, getitem. rewrite Hxs. simpl. rewrite Hys.
      reflexivity. }
    destruct (IH (setitem df col (Numeric Float64 ys)) Hnd')
      as (df' & Hloop & Hcols & Hwf).
    { intros n Hn. destruct (Hfloat n (or_intror Hn)) as [zs Hzs].
      exists zs. simpl. rewrite lookup_replace_other; [exact Hzs|].
      intros ->. contradiction. }
    exists df'. simpl. rewrite Hstep. split; [exact Hloop|]. split.
    + rewrite Hcols. eapply setitem_columns; eauto.
    + intros Hw.
      assert (Hw' : wf (setitem df col (Numeric Float64 ys))).
      { apply setitem_wf; [exact Hw|]. simpl. rewrite Hlen.
        apply (getitem_len _ Hw (proj2 (getitem_lookup df col _) Hxs)). }
      destruct (Hwf Hw') as [H1 H2]. split; [exact H1|].
      rewrite H2. reflexivity.
Qed.

(** X18.  On a dataset with distinct column names [optimize_memory] never
    raises and returns the caller's dataset, changed in place: the same
    columns in the same order, same row count; every float column is
    what [to_numeric] gave for it and every other column is as it
    was. *)
Theorem optimize_memory_touches_only_numbers :
  forall (df : DataFrame),
    NoDup (Frame.columns df) ->
    exists df',
      optimize_memory df = mkOutcome df' (Ok df')
      /\ Frame.columns df' = Frame.columns df
      /\ (wf df -> wf df' /\ nrows df' = nrows df)
      /\ (forall name c,
            lookup name (cols df) = Some c ->
            dtype_of c <> DFloat64 ->
            lookup name (cols df') = Some c)
      /\ (forall name xs,
            lookup name (cols df) = Some (Numeric Float64 xs) ->
            exists ys,
              to_numeric_unsigned (Numeric Float64 xs)
              = Ok (Numeric Float64 ys)
              /\ length ys = length xs
              /\ lookup name (cols df') = Some (Numeric Float64 ys)).
Proof.
  intros df Hnd.
  pose proof (select_dtypes_NoDup is_int_or_float df Hnd) as Hnames.
  destruct (@unsigned_loop_runs (select_dtypes is_int_or_float df) df Hnames)
    as (df' & Hloop & Hcols & Hwf).
  { intros n Hn.
    apply (@select_dtypes_In is_int_or_float df n Hnd) in Hn.
    destruct Hn as (c & Hc & Hk).
    destruct c as [[|] xs|xs|bs]; try discriminate. exists xs. exact Hc. }
  exists df'. unfold optimize_memory. rewrite Hloop.
  split; [reflexivity|]. split; [exact Hcols|]. split; [exact Hwf|]. split.
  - intros name c Hc Hdt.
    rewrite (@column_loop_others to_numeric_unsigned _
               unsigned_step_rewrites _ _ _ Hloop name); [exact Hc|].
    intros Hin. apply (@select_dtypes_In is_int_or_float df name Hnd) in Hin.
    destruct Hin as (c0 & Hc0 & Hk). rewrite Hc in Hc0. injection Hc0 as <-.
    destruct c as [[|] xs|xs|bs]; simpl in *; try discriminate.
    apply Hdt. reflexivity.
  - intros name xs Hc.
    destruct (@column_loop_named to_numeric_unsigned _
                unsigned_step_rewrites _ (or_introl Hnames) _ _ Hloop
                name (Numeric Float64 xs)) as (c' & Hf & Hl).
    + apply (@select_dtypes_In is_int_or_float df name Hnd).
      exists (Numeric Float64 xs). auto.
    + exact Hc.
    + destruct (to_numeric_unsigned_float xs) as (ys & Hys & Hlen).
      exists ys. rewrite Hys in Hf. injection Hf as <-. auto.
Qed.

End OptimizeMemory.

(* ================================================================== *)
(** * The further properties on the sample frames *)

(** A downcast that keeps every column as it is. *)
Lemma keep_column_float :
  forall xs, exists ys,
    @Ok column (Numeric Float64 xs) = Ok (Numeric Float64 ys)
    /\ length ys = length xs.
Proof. intros xs. exists xs. split; reflexivity. Qed.

#[export] Instance reference_downcast : Downcast := {
  to_numeric_unsigned := fun c => Ok c;
  to_numeric_unsigned_float := keep_column_float
}.

Section ExtrasOnSamples.

Import Samples.
Local Open Scope string_scope.

Lemma drop_leaves_no_missing_witness :
  wf people
  /\ exists d,
      ret (handle_missing_values people "drop" (Some ["age"]) 5) = Ok d
      /\ Frame.columns d = Frame.columns people.
Proof.
  assert (Hwf : wf people) by (repeat constructor).
  split; [exact Hwf|]. eexists. split; [reflexivity|].
  exact (proj1 (@drop_leaves_no_missing _ people (Some ["age"]) 5 _
                  Hwf eq_refl)).
Defined.

Lemma drop_is_idempotent_witness :
  wf people
  /\ exists d,
      ret (handle_missing_values people "drop" (Some ["age"]) 5) = Ok d
      /\ ret (handle_missing_values d "drop" (Some ["age"]) 5) = Ok d.
Proof.
  assert (Hwf : wf people) by (repeat constructor).
  split; [exact Hwf|]. eexists. split; [reflexivity|].
  exact (proj1 (@drop_is_idempotent _ people (Some ["age"]) 5 _
                  Hwf eq_refl)).
Defined.


Lemma label_encoding_returns_iff_columns_exist_witness :
  wf colors
  /\ ((exists df', ret (encode_categorical colors ["color"] "label") = Ok df')
      <-> forall n, In n ["color"] -> In n (Frame.columns colors)).
Proof.
  assert (Hwf : wf colors) by (repeat constructor).
  split; [exact Hwf|].
  exact (proj1 (@label_encoding_returns_iff_columns_exist _ colors ["color"]
                  Hwf)).
Defined.

Lemma report_counts_add_up_witness :
  wf people
  /\ exists rows,
      data_quality_report people = Ok rows
      /\ map Column rows = Frame.columns people
      /\ Forall (fun r => NonNullCount r + NullCount r = nrows people
                          /\ UniqueValues r <= NonNullCount r) rows.
Proof.
  assert (Hwf : wf people) by (repeat constructor).
  split; [exact Hwf|]. exact (@report_counts_add_up people Hwf).
Defined.

Lemma report_null_percentage_range_witness :
  wf people
  /\ 0 < nrows people
  /\ exists rows,
      data_quality_report people = Ok rows
      /\ Forall (fun r => exists q,
                     NullPercentage r = Finite q
                     /\ (0 <= q)%Q /\ (q <= 100)%Q
                     /\ ((q == 0)%Q <-> NullCount r = 0)) rows.
Proof.
  assert (Hwf : wf people) by (repeat constructor).
  assert (Hn : 0 < nrows people) by (simpl; lia).
  split; [exact Hwf|]. split; [exact Hn|].
  exact (@report_null_percentage_range people Hwf Hn).
Defined.

Lemma report_duplicates_are_the_rows_removed_witness :
  wf repeated
  /\ exists rows d,
      data_quality_report repeated = Ok rows
      /\ remove_duplicates repeated None = Ok d
      /\ Forall (fun r => DuplicateRows r + nrows d = nrows repeated) rows.
Proof.
  assert (Hwf : wf repeated) by (repeat constructor).
  split; [exact Hwf|].
  exact (@report_duplicates_are_the_rows_removed repeated Hwf).
Defined.

Lemma report_after_remove_duplicates_witness :
  wf repeated
  /\ exists d,
      remove_duplicates repeated None = Ok d
      /\ exists rows,
          data_quality_report d = Ok rows
          /\ Forall (fun r => DuplicateRows r = 0) rows.
Proof.
  assert (Hwf : wf repeated) by (repeat constructor).
  split; [exact Hwf|]. eexists. split; [reflexivity|].
  exact (@report_after_remove_duplicates repeated _ Hwf eq_refl).
Defined.


Lemma one_hot_indicators_are_exclusive_witness :
  nth_error [Some "red"; Some "green"; None] 2 = Some None
  /\ In ("color_red", Boolean [true; false; false])
        (dummies_1d "color" (Object [Some "red"; Some "green"; None]))
  /\ nth_error [true; false; false] 2 = Some false.
Proof.
  assert (Hin : In ("color_red", Boolean [true; false; false])
                   (dummies_1d "color"
                      (Object [Some "red"; Some "green"; None])))
    by (left; reflexivity).
  split; [reflexivity|]. split; [exact Hin|].
  exact (proj2 (@one_hot_indicators_are_exclusive _ "color"
                  [Some "red"; Some "green"; None])
           2 "color_red" [true; false; false] eq_refl Hin).
Defined.

Lemma convert_dtypes_keeps_what_it_cannot_convert_witness :
  lookup "city" (cols people)
  = Some (Object [Some "b"; None; Some "a"; Some "b"])
  /\ to_datetime [Some "b"; None; Some "a"; Some "b"] = Raise ValueError
  /\ lookup "city" (cols (final (convert_dtypes people)))
     = Some (Object [Some "b"; None; Some "a"; Some "b"]).
Proof.
  split; [reflexivity|]. split; [reflexivity|].
  exact (proj2 (proj2 (proj2 (@convert_dtypes_keeps_what_it_cannot_convert
                                 _ people)))
           "city" _ ValueError eq_refl eq_refl).
Defined.

Lemma convert_dtypes_converts_text_and_floats_witness :
  NoDup (Frame.columns people)
  /\ lookup "age" (cols people)
     = Some (Numeric Float64 [Some 1; Some 2; None; Some 4]%Q)
  /\ lookup "age" (cols (final (convert_dtypes people)))
     = Some (Numeric Float64
               (to_numeric_downcast [Some 1; Some 2; None; Some 4]%Q)).
Proof.
  assert (Hnd : NoDup (Frame.columns people)).
  { repeat constructor; simpl; intuition discriminate. }
  split; [exact Hnd|]. split; [reflexivity|].
  exact (proj2 (@convert_dtypes_converts_text_and_floats _ people Hnd)
           "age" _ eq_refl).
Defined.

Lemma optimize_memory_touches_only_numbers_witness :
  NoDup (Frame.columns people)
  /\ exists df',
      optimize_memory people = mkOutcome df' (Ok df')
      /\ Frame.columns df' = Frame.columns people.
Proof.
  assert (Hnd : NoDup (Frame.columns people)).
  { repeat constructor; simpl; intuition discriminate. }
  split; [exact Hnd|].
  destruct (@optimize_memory_touches_only_numbers _ people Hnd)
    as (df' & Ho & Hc & _).
  exists df'. split; [exact Ho | exact Hc].
Defined.

End ExtrasOnSamples.
